(** * TradeBerg chat: the attachment pipeline, the submit handler and the
      mock streaming backend

    A shallow embedding of
      - [src/lib/api/backend.ts]            (the mock [chatApi]),
      - [src/components/chat/TradebergChat.tsx]
        ([ChatInterface], [PromptTray], [AttachWebpageModal]),
    followed by the properties of the capture trigger, the attachment sink,
    the submit handler and the reply stream.

    Conventions.
      - A JavaScript string is the list of its UTF-16 code units.
      - A [Uint8Array] is the list of its bytes (numbers below 256).
      - React state is a record; a handler created during a render reads the
        state of that render (its closure) and writes through the setters,
        which act on the live state.
      - An [await] is resolved in place by the value the awaited promise
        settles to; events that a browser could interleave while a handler
        is suspended are not part of the model. *)

From Stdlib Require Import NArith Ascii String Lia.
From stdpp Require Import base list.

(* ------------------------------------------------------------------------- *)
(** ** JavaScript values used by the component *)
(* ------------------------------------------------------------------------- *)

Module Js.

(** A string: its UTF-16 code units. *)
Abbreviation jsstring := (list N) (only parsing).

(** A string literal of the source, as code units. *)
Definition lit (s : string) : jsstring :=
  map N_of_ascii (list_ascii_of_string s).
Arguments lit : simpl never.

(** ECMAScript [WhiteSpace] and [LineTerminator] code points, the ones
    [String.prototype.trim] strips. *)
Definition isWhiteSpace (c : N) : bool :=
  ((c =? 0x09) || (c =? 0x0A) || (c =? 0x0B) || (c =? 0x0C) || (c =? 0x0D)
   || (c =? 0x20) || (c =? 0xA0) || (c =? 0x1680)
   || ((0x2000 <=? c) && (c <=? 0x200A))
   || (c =? 0x2028) || (c =? 0x2029) || (c =? 0x202F) || (c =? 0x205F)
   || (c =? 0x3000) || (c =? 0xFEFF))%N.

Fixpoint trimStart (s : jsstring) : jsstring :=
  match s with
  | c :: s' => if isWhiteSpace c then trimStart s' else s
  | [] => []
  end.

Definition trimEnd (s : jsstring) : jsstring :=
  rev (trimStart (rev s)).

(** [s.trim()] *)
Definition trim (s : jsstring) : jsstring := trimEnd (trimStart s).

(** Truthiness of a string: the empty string is the only falsy one. *)
Definition truthy (s : jsstring) : bool :=
  match s with [] => false | _ :: _ => true end.

(** [s.slice(start, end)] for non-negative integer arguments: both are
    clamped to the length; the result is empty when [end <= start]. *)
Definition slice (s : jsstring) (start stop : nat) : jsstring :=
  take (stop - start) (drop start s).

(** An exception value, as far as the component inspects it: [err.name]. *)
Record Error := mkError { name : jsstring; message : jsstring }.

(** What a promise settles to. *)
Inductive Settled (A : Type) :=
| fulfilled (a : A)
| rejected (e : Error).
Arguments fulfilled {A} a.
Arguments rejected {A} e.

(** *** [TextEncoder]: UTF-8 from UTF-16 *)

Definition isLead (c : N) : bool := ((0xD800 <=? c) && (c <=? 0xDBFF))%N.
Definition isTrail (c : N) : bool := ((0xDC00 <=? c) && (c <=? 0xDFFF))%N.

(** Scalar values of a string; an unpaired surrogate becomes U+FFFD. *)
Fixpoint scalars (s : jsstring) : list N :=
  match s with
  | [] => []
  | c :: rest =>
      if isLead c then
        match rest with
        | d :: rest' =>
            if isTrail d
            then (0x10000 + (c - 0xD800) * 0x400 + (d - 0xDC00))%N
                   :: scalars rest'
            else 0xFFFD%N :: scalars rest
        | [] => [0xFFFD%N]
        end
      else if isTrail c then 0xFFFD%N :: scalars rest
      else c :: scalars rest
  end.

Definition utf8 (cp : N) : list N :=
  (if cp <? 0x80 then [cp]
   else if cp <? 0x800 then
     [N.lor 0xC0 (N.shiftr cp 6); N.lor 0x80 (N.land cp 0x3F)]
   else if cp <? 0x10000 then
     [N.lor 0xE0 (N.shiftr cp 12);
      N.lor 0x80 (N.land (N.shiftr cp 6) 0x3F);
      N.lor 0x80 (N.land cp 0x3F)]
   else
     [N.lor 0xF0 (N.shiftr cp 18);
      N.lor 0x80 (N.land (N.shiftr cp 12) 0x3F);
      N.lor 0x80 (N.land (N.shiftr cp 6) 0x3F);
      N.lor 0x80 (N.land cp 0x3F)])%N.

(** [new TextEncoder().encode(s)] *)
Definition encode (s : jsstring) : list N :=
  concat (map utf8 (scalars s)).

(** *** [TextDecoder] in streaming mode: the UTF-8 decoder of the Encoding
    standard, with its byte-order-mark handling *)

Record Decoder := mkDecoder {
  codePoint : N;
  bytesSeen : N;
  bytesNeeded : N;
  lower : N;
  upper : N;
  bomSeen : bool
}.

(** [new TextDecoder()] *)
Definition newDecoder : Decoder := mkDecoder 0 0 0 0x80 0xBF false.

Definition resetSequence (d : Decoder) : Decoder :=
  mkDecoder 0 0 0 0x80 0xBF (bomSeen d).

(** A byte met while no sequence is open. *)
Definition leadByte (d : Decoder) (b : N) : Decoder * list N :=
  (if b <=? 0x7F then (d, [b])
   else if (0xC2 <=? b) && (b <=? 0xDF) then
     (mkDecoder (N.land b 0x1F) 0 1 0x80 0xBF (bomSeen d), [])
   else if (0xE0 <=? b) && (b <=? 0xEF) then
     (mkDecoder (N.land b 0xF) 0 2
        (if b =? 0xE0 then 0xA0 else 0x80)
        (if b =? 0xED then 0x9F else 0xBF) (bomSeen d), [])
   else if (0xF0 <=? b) && (b <=? 0xF4) then
     (mkDecoder (N.land b 0x7) 0 3
        (if b =? 0xF0 then 0x90 else 0x80)
        (if b =? 0xF4 then 0x8F else 0xBF) (bomSeen d), [])
   else (d, [0xFFFD]))%N.

(** One byte through the decoder: the new state and the code points it
    emits. *)
Definition decodeByte (d : Decoder) (b : N) : Decoder * list N :=
  (if bytesNeeded d =? 0 then leadByte d b
   else if negb ((lower d <=? b) && (b <=? upper d)) then
     (* malformed: emit U+FFFD and look at the byte again *)
     let '(d', out) := leadByte (resetSequence d) b in (d', 0xFFFD :: out)
   else
     let cp := N.lor (N.shiftl (codePoint d) 6) (N.land b 0x3F) in
     let seen := bytesSeen d + 1 in
     if seen =? bytesNeeded d
     then (resetSequence d, [cp])
     else (mkDecoder cp seen (bytesNeeded d) 0x80 0xBF (bomSeen d), []))%N.

(** Code units of a code point. *)
Definition units (cp : N) : jsstring :=
  (if cp <? 0x10000 then [cp]
   else [0xD800 + N.shiftr (cp - 0x10000) 10;
         0xDC00 + N.land (cp - 0x10000) 0x3FF])%N.

(** Serialisation of the emitted code points: the first one is dropped
    when it is the byte-order mark. *)
Fixpoint serialize (seen : bool) (cps : list N) : bool * jsstring :=
  match cps with
  | [] => (seen, [])
  | cp :: rest =>
      if negb seen && (cp =? 0xFEFF)%N then serialize true rest
      else let '(seen', out) := serialize true rest in
           (seen', units cp ++ out)
  end.

Fixpoint decodeBytes (d : Decoder) (bytes : list N) : Decoder * list N :=
  match bytes with
  | [] => (d, [])
  | b :: rest =>
      let '(d1, out1) := decodeByte d b in
      let '(d2, out2) := decodeBytes d1 rest in
      (d2, out1 ++ out2)
  end.

(** [decoder.decode(value, { stream: true })] *)
Definition decode (d : Decoder) (value : list N) : Decoder * jsstring :=
  let '(d', cps) := decodeBytes d value in
  let '(seen, out) := serialize (bomSeen d') cps in
  (mkDecoder (codePoint d') (bytesSeen d') (bytesNeeded d')
     (lower d') (upper d') seen, out).

(** Decoding of a complete byte sequence, as [Response.text()] does it:
    an unfinished sequence at the end becomes U+FFFD. *)
Definition decodeWhole (bytes : list N) : jsstring :=
  let '(d, cps) := decodeBytes newDecoder bytes in
  snd (serialize false
         (cps ++ if (bytesNeeded d =? 0)%N then [] else [0xFFFD%N])).

End Js.

(* ------------------------------------------------------------------------- *)
(** ** Types of [TradebergChat.tsx] *)
(* ------------------------------------------------------------------------- *)

Inductive Role := user | assistant.

(** The tag of the [Attachment] union. *)
Inductive AttachmentType := image | url | file.

(** [{ type: "image" | "url" | "file"; data: string }] *)
Record Attachment := mkAttachment {
  type : AttachmentType;
  data : Js.jsstring
}.

(** [{ role; content; attachments? }] *)
Record ChatMessage := mkMessage {
  role : Role;
  content : Js.jsstring;
  msg_attachments : option (list Attachment)
}.

Inductive Mode := chat_mode | trade_mode.

#[global] Instance Role_eq_dec : EqDecision Role.
Proof. solve_decision. Defined.
#[global] Instance AttachmentType_eq_dec : EqDecision AttachmentType.
Proof. solve_decision. Defined.
#[global] Instance Attachment_eq_dec : EqDecision Attachment.
Proof. solve_decision. Defined.

(* ------------------------------------------------------------------------- *)
(** ** The backend interface and its mock, [src/lib/api/backend.ts] *)
(* ------------------------------------------------------------------------- *)

Module Backend.
Import Js.

(** [{ data, error }] *)
Record Result (A : Type) := mkResult {
  res_data : option A;
  res_error : option Error
}.
Arguments mkResult {A} _ _.
Arguments res_data {A} _.
Arguments res_error {A} _.

Record ChatCreated := mkChatCreated { created_chatId : jsstring }.

(** A row of history as [loadHistory] reads it: [m.role], [m.content]. *)
Record HistoryRow := mkRow {
  row_role : jsstring;
  row_content : option jsstring
}.

(** [signal.aborted] as the stream's interval callback reads it on its
    n-th run (counted from 0). *)
Record AbortSignal := mkSignal { aborted : nat -> bool }.

(** How a stream ends for its reader: [read()] answers [done], or throws. *)
Inductive StreamEnd := closed | errored (e : Error).

(** A [ReadableStream] as its reader sees it: the chunks that [read()]
    yields, in order, and then the end. *)
Record ReadableStream := mkStream {
  chunks : list (list N);
  ending : StreamEnd
}.

(** A [Response]: [body] (absent for a body-less response) and what
    [text()] settles to. *)
Record Response := mkResponse {
  body : option ReadableStream;
  text : Settled jsstring
}.

(** The interface the chat component consumes. *)
Class ChatApi := {
  createChat : jsstring -> Settled (Result ChatCreated);
  getMessages : jsstring -> Settled (Result (list HistoryRow));
  streamMessage :
    jsstring -> jsstring -> list Attachment -> AbortSignal -> option Mode ->
    Settled Response
}.

(** *** The mock *)

(** The canned reply of [streamMessage]. *)
Definition reply : jsstring :=
  lit "This is a mock response from TradeBerg. In the real app, this would be a streaming AI response analyzing the market data.".

(** The underlying source of the stream: the closure of [start], i.e. the
    cursor [i], whether the interval is still set, whether the controller
    was closed, and what was enqueued so far. *)
Record Source := mkSource {
  i : nat;
  interval : bool;
  isClosed : bool;
  enqueued : list (list N)
}.

Definition start : Source := mkSource 0 true false [].

Section Stream.
Variable text : jsstring.

(** One run of the interval callback. *)
Definition callback (signalAborted : bool) (s : Source) : Source :=
  if signalAborted then
    (* clearInterval(interval); controller.close(); return *)
    mkSource (i s) false true (enqueued s)
  else if length text <=? i s then
    mkSource (i s) false true (enqueued s)
  else
    let chunk := slice text (i s) (i s + 5) in
    mkSource (i s + 5) (interval s) (isClosed s)
             (enqueued s ++ [encode chunk]).

(** The interval: the callback runs every 50 ms for as long as it is
    set.  [n] is the number of the next run, [fuel] bounds how many runs
    are followed. *)
Fixpoint runInterval (signal : AbortSignal) (fuel n : nat) (s : Source)
  : Source :=
  match fuel with
  | 0 => s
  | S fuel' =>
      if interval s
      then runInterval signal fuel' (S n) (callback (aborted signal n) s)
      else s
  end.

(** Runs after which the interval is certainly cleared. *)
Definition enoughRuns : nat := S (length text).

Definition sourceOf (signal : AbortSignal) : Source :=
  runInterval signal enoughRuns 0 start.

(** The stream handed to [new Response(stream)], as its reader sees it
    once the source has closed it. *)
Definition streamOf (signal : AbortSignal) : ReadableStream :=
  mkStream (enqueued (sourceOf signal)) closed.
End Stream.

(** [export const chatApi] *)
#[global] Instance chatApi : ChatApi := {
  createChat _prompt :=
    fulfilled (mkResult (Some (mkChatCreated (lit "mock-chat-id"))) None);
  getMessages _chatId :=
    fulfilled (mkResult (Some []) None);
  streamMessage _chatId _prompt _attachments signal _mode :=
    let stream := streamOf reply signal in
    fulfilled (mkResponse (Some stream)
                 (fulfilled (decodeWhole (concat (chunks stream)))))
}.

End Backend.

(* ------------------------------------------------------------------------- *)
(** ** State of the components and the monad of handler bodies *)
(* ------------------------------------------------------------------------- *)

Module Chat.
Import Js Backend.

(** [new AbortController()]: the controller is known by the order of its
    creation; its signal is what the stream it is handed to will read. *)
Record AbortController := mkController {
  controllerId : nat;
  signal : AbortSignal
}.

(** The [useState] cells of [ChatInterface]. *)
Record ChatState := mkChat {
  chatId : option jsstring;
  messages : list ChatMessage;
  isLoading : bool;
  abortController : option AbortController;
  attachments : list Attachment;
  isWebpageModalOpen : bool;
  previewImage : option jsstring;
  isEditingPrompt : bool;
  editDraft : jsstring;
  isAssistantTyping : bool;
  forceCompleteTyping : bool
}.

(** The [useState] cells of [PromptTray]. *)
Record TrayState := mkTray {
  prompt : jsstring;
  isCapturing : bool
}.

(** What the handlers do to the outside. *)
Inductive Effect :=
| ConsoleLog (msg : jsstring)
| ConsoleWarn (msg : jsstring)
| ConsoleError (msg : jsstring) (err : Error)
| StartPollingChat (id : jsstring)
| Abort (controller : nat)
| CallCreateChat (prompt : jsstring)
| CallStreamMessage (id prompt : jsstring) (atts : list Attachment)
                    (mode : option Mode).

(** Everything a handler can read or write: the component states, the
    [url] cell of the open [AttachWebpageModal], the effects so far (most
    recent last), the number of [AbortController]s created, and the number
    of [await]s executed (a ghost counter: a call of an async function
    that executes no [await] returns a promise that is already settled). *)
Record World := mkWorld {
  ui : ChatState;
  tray : TrayState;
  modalUrl : jsstring;
  effects : list Effect;
  controllers : nat;
  awaits : nat
}.

(** Completion of a statement list. *)
Inductive Completion (A : Type) :=
| normal (a : A)
| returning
| throwing (e : Error).
Arguments normal {A} a.
Arguments returning {A}.
Arguments throwing {A} e.

(** A function body with local variables [L]. *)
Definition Body (L A : Type) : Type :=
  L -> World -> Completion A * L * World.

#[global] Instance Body_ret {L} : MRet (Body L) :=
  fun A a l w => (normal a, l, w).

#[global] Instance Body_bind {L} : MBind (Body L) :=
  fun A B k m l w =>
    match m l w with
    | (normal a, l', w') => k a l' w'
    | (returning, l', w') => (returning, l', w')
    | (throwing e, l', w') => (throwing e, l', w')
    end.

Definition skip {L} : Body L unit := mret tt.

(** [return;] *)
Definition return_ {L A} : Body L A := fun l w => (returning, l, w).

(** [throw e] *)
Definition throw {L A} (e : Error) : Body L A :=
  fun l w => (throwing e, l, w).

Definition getLocals {L} : Body L L := fun l w => (normal l, l, w).
Definition setLocals {L} (f : L -> L) : Body L unit :=
  fun l w => (normal tt, f l, w).
Definition getWorld {L} : Body L World := fun l w => (normal w, l, w).
Definition modify {L} (f : World -> World) : Body L unit :=
  fun l w => (normal tt, l, f w).

(** [await p] *)
Definition await {L A} (p : Settled A) : Body L A :=
  fun l w =>
    let w' := mkWorld (ui w) (tray w) (modalUrl w) (effects w)
                      (controllers w) (S (awaits w)) in
    match p with
    | fulfilled a => (normal a, l, w')
    | rejected e => (throwing e, l, w')
    end.

(** [try { body } catch (err) { handler err } finally { finalizer }] *)
Definition tryCatchFinally {L A}
    (body : Body L A) (handler : Error -> Body L A)
    (finalizer : Body L unit) : Body L A :=
  fun l w =>
    let '(c1, l1, w1) :=
      match body l w with
      | (throwing e, l', w') => handler e l' w'
      | r => r
      end in
    match finalizer l1 w1 with
    | (normal _, l2, w2) => (c1, l2, w2)
    | (returning, l2, w2) => (returning, l2, w2)
    | (throwing e, l2, w2) => (throwing e, l2, w2)
    end.

(** The promise an async function returns and whether it was still
    pending when the call returned. *)
Record Promise := mkPromise {
  settles : Settled unit;
  pendingAtReturn : bool
}.

(** [async () => { body }] with fresh locals [l0]. *)
Definition async {L} (l0 : L) (body : Body L unit) : World -> Promise * World :=
  fun w =>
    let '(c, _, w') := body l0 w in
    (mkPromise
       match c with
       | normal _ | returning => fulfilled tt
       | throwing e => rejected e
       end
       (negb (awaits w' =? awaits w)),
     w').

(** An event handler: whatever it returns is dropped; a synchronous
    exception is not caught by anyone here and ends the handler. *)
Definition Handler := World -> World.

Definition handler {L} (l0 : L) (body : Body L unit) : Handler :=
  fun w => snd (body l0 w).

Definition floating (f : World -> Promise * World) : Handler :=
  fun w => snd (f w).

Definition call {L} (h : Handler) : Body L unit := modify h.

(** *** Setters *)

Definition onUi (f : ChatState -> ChatState) (w : World) : World :=
  mkWorld (f (ui w)) (tray w) (modalUrl w) (effects w) (controllers w)
          (awaits w).

Definition onTray (f : TrayState -> TrayState) (w : World) : World :=
  mkWorld (ui w) (f (tray w)) (modalUrl w) (effects w) (controllers w)
          (awaits w).

Definition emit (e : Effect) (w : World) : World :=
  mkWorld (ui w) (tray w) (modalUrl w) (effects w ++ [e]) (controllers w)
          (awaits w).

Section Setters.
Context {L : Type}.

Definition setChatId (v : option jsstring) : Body L unit :=
  modify (onUi (fun s =>
    mkChat v (messages s) (isLoading s) (abortController s)
      (attachments s) (isWebpageModalOpen s) (previewImage s)
      (isEditingPrompt s) (editDraft s) (isAssistantTyping s)
      (forceCompleteTyping s))).

Definition setMessages (f : list ChatMessage -> list ChatMessage)
  : Body L unit :=
  modify (onUi (fun s =>
    mkChat (chatId s) (f (messages s)) (isLoading s) (abortController s)
      (attachments s) (isWebpageModalOpen s) (previewImage s)
      (isEditingPrompt s) (editDraft s) (isAssistantTyping s)
      (forceCompleteTyping s))).

Definition setIsLoading (v : bool) : Body L unit :=
  modify (onUi (fun s =>
    mkChat (chatId s) (messages s) v (abortController s)
      (attachments s) (isWebpageModalOpen s) (previewImage s)
      (isEditingPrompt s) (editDraft s) (isAssistantTyping s)
      (forceCompleteTyping s))).

Definition setAbortController (v : option AbortController)
  : Body L unit :=
  modify (onUi (fun s =>
    mkChat (chatId s) (messages s) (isLoading s) v
      (attachments s) (isWebpageModalOpen s) (previewImage s)
      (isEditingPrompt s) (editDraft s) (isAssistantTyping s)
      (forceCompleteTyping s))).

Definition setAttachments (f : list Attachment -> list Attachment)
  : Body L unit :=
  modify (onUi (fun s =>
    mkChat (chatId s) (messages s) (isLoading s) (abortController s)
      (f (attachments s)) (isWebpageModalOpen s) (previewImage s)
      (isEditingPrompt s) (editDraft s) (isAssistantTyping s)
      (forceCompleteTyping s))).

Definition setIsWebpageModalOpen (v : bool) : Body L unit :=
  modify (onUi (fun s =>
    mkChat (chatId s) (messages s) (isLoading s) (abortController s)
      (attachments s) v (previewImage s)
      (isEditingPrompt s) (editDraft s) (isAssistantTyping s)
      (forceCompleteTyping s))).

Definition setPreviewImage (v : option jsstring) : Body L unit :=
  modify (onUi (fun s =>
    mkChat (chatId s) (messages s) (isLoading s) (abortController s)
      (attachments s) (isWebpageModalOpen s) v
      (isEditingPrompt s) (editDraft s) (isAssistantTyping s)
      (forceCompleteTyping s))).

Definition setIsEditingPrompt (v : bool) : Body L unit :=
  modify (onUi (fun s =>
    mkChat (chatId s) (messages s) (isLoading s) (abortController s)
      (attachments s) (isWebpageModalOpen s) (previewImage s)
      v (editDraft s) (isAssistantTyping s) (forceCompleteTyping s))).

Definition setEditDraft (v : jsstring) : Body L unit :=
  modify (onUi (fun s =>
    mkChat (chatId s) (messages s) (isLoading s) (abortController s)
      (attachments s) (isWebpageModalOpen s) (previewImage s)
      (isEditingPrompt s) v (isAssistantTyping s)
      (forceCompleteTyping s))).

Definition setIsAssistantTyping (v : bool) : Body L unit :=
  modify (onUi (fun s =>
    mkChat (chatId s) (messages s) (isLoading s) (abortController s)
      (attachments s) (isWebpageModalOpen s) (previewImage s)
      (isEditingPrompt s) (editDraft s) v (forceCompleteTyping s))).

Definition setForceCompleteTyping (v : bool) : Body L unit :=
  modify (onUi (fun s =>
    mkChat (chatId s) (messages s) (isLoading s) (abortController s)
      (attachments s) (isWebpageModalOpen s) (previewImage s)
      (isEditingPrompt s) (editDraft s) (isAssistantTyping s) v)).

Definition setPrompt (v : jsstring) : Body L unit :=
  modify (onTray (fun t => mkTray v (isCapturing t))).

Definition setIsCapturing (v : bool) : Body L unit :=
  modify (onTray (fun t => mkTray (prompt t) v)).

Definition setUrl (v : jsstring) : Body L unit :=
  modify (fun w => mkWorld (ui w) (tray w) v (effects w) (controllers w)
                           (awaits w)).

Definition console_log (msg : string) : Body L unit :=
  modify (emit (ConsoleLog (lit msg))).
Definition console_warn (msg : string) : Body L unit :=
  modify (emit (ConsoleWarn (lit msg))).
Definition console_error (msg : string) (err : Error) : Body L unit :=
  modify (emit (ConsoleError (lit msg) err)).

(** [startPollingChat] of the mock [useChats] does nothing; the call is
    recorded. *)
Definition startPollingChat (id : jsstring) : Body L unit :=
  modify (emit (StartPollingChat id)).

(** [controller.abort()] *)
Definition abort (ctl : AbortController) : Body L unit :=
  modify (emit (Abort (controllerId ctl))).
End Setters.

(** *** [ChatInterface] *)

(** The props the model reads. *)
Record Props := mkProps {
  initialChatId : option jsstring;
  mode : option Mode
}.

(** The locals of [handleSubmit]. *)
Record SubmitLocals := mkLocals {
  activeChatId : option jsstring;
  full : jsstring
}.

(** [!x] for [x : string | null | undefined]. *)
Definition falsy (x : option jsstring) : bool :=
  match x with
  | Some s => negb (truthy s)
  | None => true
  end.

Definition notNull {A} (x : option A) : bool :=
  match x with
  | Some _ => true
  | None => false
  end.

(** [prev.filter((_, i) => i !== index)], with [from] the index of the
    head of [prev]. *)
Fixpoint filterOutIndex {A} (index from : nat) (prev : list A) : list A :=
  match prev with
  | [] => []
  | x :: rest =>
      if negb (from =? index)
      then x :: filterOutIndex index (S from) rest
      else filterOutIndex index (S from) rest
  end.

Section ChatInterface.
Context {api : ChatApi}.
(** The signal of the n-th controller created. *)
Variable signals : nat -> AbortSignal.
Variable props : Props.
(** The state of the render that created the handlers. *)
Variable c : ChatState.

Definition newAbortController {L} : Body L AbortController :=
  fun l w =>
    (normal (mkController (controllers w) (signals (controllers w))), l,
     mkWorld (ui w) (tray w) (modalUrl w) (effects w)
             (S (controllers w)) (awaits w)).

(** The [while (true)] loop over [await reader.read()]. *)
Fixpoint readLoop (decoder : Decoder) (pending : list (list N))
    (fin : StreamEnd) : Body SubmitLocals unit :=
  match pending with
  | chunk :: rest =>
      value ← await (fulfilled chunk) ;      (* { done: false, value } *)
      let '(decoder', decoded) := decode decoder value in
      setLocals (fun l => mkLocals (activeChatId l) (full l ++ decoded)) ;;
      readLoop decoder' rest fin
  | [] =>
      match fin with
      | closed => await (fulfilled tt)       (* { done: true }: break *)
      | errored e => await (rejected e)
      end
  end.

(** The guard of [handleSubmit]. *)
Definition submitRefused (prompt : jsstring) : bool :=
  isLoading c
  || (negb (truthy (trim prompt)) && (length (attachments c) =? 0)).

Definition handleSubmit (prompt : jsstring) : World -> Promise * World :=
  async (mkLocals (chatId c) []) (
    if submitRefused prompt then return_ else
    let currentAttachments := attachments c in
    (* push user message (with attachments rendered in bubble) *)
    setMessages (fun prev =>
      prev ++ [mkMessage user prompt (Some currentAttachments)]) ;;
    setAttachments (fun _ => []) ;;
    setIsLoading true ;;
    tryCatchFinally
      ( l ← getLocals ;
        (if falsy (activeChatId l) then
           (* create chat if needed *)
           modify (emit (CallCreateChat prompt)) ;;
           res ← await (createChat prompt) ;
           if notNull (res_error res)
              || falsy (created_chatId <$> res_data res)
           then setIsLoading false ;; return_
           else
             let id := default [] (created_chatId <$> res_data res) in
             setLocals (fun l => mkLocals (Some id) (full l)) ;;
             setChatId (Some id) ;;
             startPollingChat id
         else skip) ;;
        (* If there is an existing stream, abort it before starting a
           new one. *)
        match abortController c with
        | Some old => abort old
        | None => skip
        end ;;
        controller ← newAbortController ;
        setAbortController (Some controller) ;;
        l ← getLocals ;
        let id := default [] (activeChatId l) in
        modify (emit (CallStreamMessage id prompt currentAttachments
                        (mode props))) ;;
        response ← await (streamMessage id prompt currentAttachments
                            (signal controller) (mode props)) ;
        match body response with
        | Some reader =>
            readLoop newDecoder (chunks reader) (ending reader)
        | None =>
            t ← await (text response) ;
            setLocals (fun l => mkLocals (activeChatId l) t)
        end ;;
        l ← getLocals ;
        setMessages (fun prev =>
          prev ++ [mkMessage assistant (full l) None]) ;;
        setIsAssistantTyping true ;;
        setForceCompleteTyping false )
      (fun err =>
         if bool_decide (name err = lit "AbortError") then
           (* Stream was manually stopped by the user; keep whatever
              content we have so far. *)
           console_warn "chat stream aborted by user" ;;
           l ← getLocals ;
           if truthy (full l) then
             setMessages (fun prev =>
               prev ++ [mkMessage assistant (full l) None]) ;;
             setIsAssistantTyping true ;;
             setForceCompleteTyping false
           else skip
         else console_error "chat error" err)
      (setIsLoading false ;; setAbortController None)).

Definition handleStopStreaming : Handler :=
  handler tt (
    match abortController c with
    | Some ctl =>
        abort ctl ;; setAbortController None ;; setIsLoading false
    | None => skip
    end ;;
    if isAssistantTyping c then
      setForceCompleteTyping true ;; setIsAssistantTyping false
    else skip).

Definition handleAssistantTypingDone : Handler :=
  handler tt (setIsAssistantTyping false ;; setForceCompleteTyping false).

Definition handleSetAttachment (att : option Attachment) : Handler :=
  handler tt (
    match att with
    | None => return_
    | Some a => setAttachments (fun prev => prev ++ [a])
    end).

Definition removeAttachment : Handler :=
  handler tt (setAttachments (fun _ => [])).

(** [removeAtIndex] of the thumbnail rendered for position [index]. *)
Definition removeAtIndex (index : nat) : Handler :=
  handler tt (setAttachments (fun prev => filterOutIndex index 0 prev)).

Definition handleStartEdit (content : jsstring) : Handler :=
  handler tt (setEditDraft content ;; setIsEditingPrompt true).

Definition handleEditCancel : Handler :=
  handler tt (setIsEditingPrompt false ;; setEditDraft []).

Definition handleEditSend : Handler :=
  handler tt (
    if negb (truthy (trim (editDraft c))) then
      call handleEditCancel ;; return_
    else
      call (floating (handleSubmit (editDraft c))) ;;
      setIsEditingPrompt false ;;
      setEditDraft []).

(** [onAdd] handed to [AttachWebpageModal]. *)
Definition onAdd (u : jsstring) : Handler :=
  handler tt (
    call (handleSetAttachment (Some (mkAttachment url u))) ;;
    setIsWebpageModalOpen false).

(** The [useEffect] that loads the history of an existing chat. *)
Definition loadHistory : Handler :=
  handler tt (
    match initialChatId props with
    | Some id =>
        if negb (truthy id) then return_ else
        res ← await (getMessages id) ;
        match res_error res, res_data res with
        | None, Some rows =>
            setMessages (fun _ =>
              map (fun m =>
                     mkMessage
                       (if bool_decide (row_role m = lit "assistant")
                        then assistant else user)
                       (default [] (row_content m)) None) rows)
        | _, _ => return_
        end
    | None => return_
    end).
End ChatInterface.
Arguments handleSubmit : simpl never.

(** *** [PromptTray] *)

Section PromptTray.
(** Props. *)
Variable onSubmit : jsstring -> Handler.
Variable onAttachment : option Attachment -> Handler.
Variable onOpenWebModal : Handler.
(** The state of the render that created the handlers. *)
Variable t : TrayState.

Definition handleFormSubmit : Handler :=
  handler tt (call (onSubmit (prompt t)) ;; setPrompt []).

(** Capture TradingView chart into an image attachment: the body is the
    placeholder of the challenge, one [console.log]. *)
Definition handleCaptureClick : World -> Promise * World :=
  async tt (
    console_log
      "Capture clicked - functionality to be implemented by candidate.").

(** [files] is [event.target.files], given by the names of its files. *)
Definition handleFileChange (files : option (list jsstring)) : Handler :=
  handler tt (
    match files ≫= head with
    | Some fileName =>
        call (onAttachment (Some (mkAttachment file fileName)))
    | None => skip
    end).
End PromptTray.

(** *** [AttachWebpageModal] *)

Section AttachWebpageModal.
Variable onAddProp : jsstring -> Handler.
(** The [url] cell of the render that created the handler. *)
Variable u : jsstring.

Definition handleAdd : Handler :=
  handler tt (
    if truthy (trim u) then call (onAddProp (trim u)) else skip).
End AttachWebpageModal.

(** *** The rendered tree and its events *)

Inductive Event :=
| Mounted                                   (* the history effect runs *)
| PromptChange (v : jsstring)               (* typing in the textarea *)
| FormSubmit                                (* Enter, or the send button *)
| FileChange (files : option (list jsstring))
| GlobeClick
| CameraClick
| StopClick
| ThumbnailRemove (index : nat)
| ThumbnailClick (index : nat)
| PreviewClose
| ModalUrlChange (v : jsstring)
| ModalAdd
| ModalClose
| TypingDone
| EditRequest (content : jsstring)
| EditChange (v : jsstring)
| EditCancel
| EditSend.

Definition initialChat (props : Props) : ChatState :=
  mkChat (initialChatId props) [] false None [] false None false [] false
         false.

Definition initialTray : TrayState := mkTray [] false.

Definition initialWorld (props : Props) : World :=
  mkWorld (initialChat props) initialTray [] [] 0 0.

Section Render.
Context {api : ChatApi}.
Variable signals : nat -> AbortSignal.
Variable props : Props.

(** One event on the tree rendered from [w].  An event whose control is
    not rendered, or is disabled, does nothing.  [PromptTray] and the
    thumbnails are rendered while the prompt is not being edited; an
    unmounted component loses its state. *)
Definition dispatch (e : Event) (w : World) : World :=
  let c := ui w in
  let t := tray w in
  let trayShown := negb (isEditingPrompt c) in
  let onSubmit := fun p => floating (handleSubmit signals props c p) in
  let onStop :=
    if isAssistantTyping c || notNull (abortController c)
    then Some (handleStopStreaming c) else None in
  match e with
  | Mounted => loadHistory props w
  | PromptChange v =>
      (* <textarea disabled={isLoading}> *)
      if trayShown && negb (isLoading c)
      then handler tt (setPrompt v) w else w
  | FormSubmit =>
      if trayShown then handleFormSubmit onSubmit t w else w
  | FileChange files =>
      if trayShown then handleFileChange handleSetAttachment files w
      else w
  | GlobeClick =>
      (* onOpenWebModal; a modal that mounts starts with [url = ""] *)
      if trayShown
      then handler tt (setIsWebpageModalOpen true ;;
                       if isWebpageModalOpen c then skip else setUrl []) w
      else w
  | CameraClick =>
      (* <IconButton onClick={handleCaptureClick} disabled={isCapturing}> *)
      if trayShown && negb (isCapturing t)
      then floating handleCaptureClick w else w
  | StopClick =>
      (* rendered when [(isLoading || isTyping) && onStop] *)
      if trayShown && (isLoading c || isAssistantTyping c)
      then match onStop with Some stop => stop w | None => w end
      else w
  | ThumbnailRemove index =>
      if trayShown && (index <? length (attachments c))
      then removeAtIndex index w else w
  | ThumbnailClick index =>
      if trayShown then
        match attachments c !! index with
        | Some a =>
            match type a with
            | image => handler tt (setPreviewImage (Some (data a))) w
            | _ => w
            end
        | None => w
        end
      else w
  | PreviewClose => handler tt (setPreviewImage None) w
  | ModalUrlChange v =>
      if isWebpageModalOpen c then handler tt (setUrl v) w else w
  | ModalAdd =>
      if isWebpageModalOpen c then handleAdd onAdd (modalUrl w) w else w
  | ModalClose =>
      if isWebpageModalOpen c
      then handler tt (setIsWebpageModalOpen false) w else w
  | TypingDone => handleAssistantTypingDone w
  | EditRequest content =>
      (* the edit form replaces the tray, which unmounts *)
      onTray (fun _ => initialTray) (handleStartEdit content w)
  | EditChange v =>
      if isEditingPrompt c then handler tt (setEditDraft v) w else w
  | EditCancel =>
      if isEditingPrompt c then handleEditCancel w else w
  | EditSend =>
      if isEditingPrompt c then handleEditSend signals props c w else w
  end.

(** A session: the events in the order they occur. *)
Definition session (events : list Event) (w : World) : World :=
  foldl (fun w e => dispatch e w) w events.
End Render.

End Chat.

(* ------------------------------------------------------------------------- *)
(** ** [MessageList] and [MessageBubble]: the typing animation *)
(* ------------------------------------------------------------------------- *)

Module Bubble.
Import Js.

Fixpoint startsWith (s sub : jsstring) : bool :=
  match sub, s with
  | [], _ => true
  | _ :: _, [] => false
  | d :: sub', ch :: s' => (ch =? d)%N && startsWith s' sub'
  end.

(** [s.includes(sub)] *)
Fixpoint includes (s sub : jsstring) : bool :=
  startsWith s sub
  || match s with
     | [] => false
     | _ :: s' => includes s' sub
     end.

(** The markers of a chart in a reply: [json-chart], and the keys [type]
    and [series] in double quotes, each followed by a colon. *)
Definition chartFence : jsstring := lit "json-chart".
Definition typeKey : jsstring := [0x22%N] ++ lit "type" ++ [0x22%N] ++ lit ":".
Definition seriesKey : jsstring :=
  [0x22%N] ++ lit "series" ++ [0x22%N] ++ lit ":".

(** The cells of one bubble: [displayedContent], whether
    [typingIntervalRef.current] holds an interval, the cursor [i] of the
    running animation, and how often [onTypingDone] was called. *)
Record State := mkState {
  displayedContent : jsstring;
  typingIntervalRef : bool;
  i : nat;
  typingDoneCalls : nat
}.

(** A bubble as it mounts. *)
Definition mounted : State := mkState [] false 0 0.

Section MessageBubble.
(** Props: the content and role of the message, the typing flags, and
    whether [onTypingDone] is defined. *)
Variable content : jsstring.
Variable isUser : bool.
Variable enableTyping : bool.
Variable forceCompleteTyping : bool.
Variable hasOnTypingDone : bool.

(** [if (onTypingDone) onTypingDone()] *)
Definition callOnTypingDone (st : State) : State :=
  if hasOnTypingDone
  then mkState (displayedContent st) (typingIntervalRef st) (i st)
               (S (typingDoneCalls st))
  else st.

Definition hasChart : bool :=
  includes content chartFence
  || (includes content typeKey && includes content seriesKey).

Definition CHARS_PER_TICK : nat := 3.

(** The cleanup of the typing effect. *)
Definition cleanup (st : State) : State :=
  mkState (displayedContent st) false (i st) (typingDoneCalls st).

(** The typing effect, run on a bubble whose interval is not set. *)
Definition typingEffect (st : State) : State :=
  if isUser then
    mkState content (typingIntervalRef st) (i st) (typingDoneCalls st)
  else if negb enableTyping then
    (* For non-typing messages, just show full content. *)
    mkState content (typingIntervalRef st) (i st) (typingDoneCalls st)
  else if hasChart then
    callOnTypingDone
      (mkState content (typingIntervalRef st) (i st) (typingDoneCalls st))
  else
    (* Reset and start typing animation. *)
    mkState [] true 0 (typingDoneCalls st).

(** One run of the interval callback of the animation. *)
Definition tick (st : State) : State :=
  let chunk := slice content (i st) (i st + CHARS_PER_TICK) in
  let st' := mkState (displayedContent st ++ chunk) (typingIntervalRef st)
                     (i st + CHARS_PER_TICK) (typingDoneCalls st) in
  if length content <=? i st' then
    callOnTypingDone
      (if typingIntervalRef st' then cleanup st' else st')
  else st'.

(** The animation: the callback runs every 5 ms for as long as the
    interval is set; [ticks] bounds how many runs are followed. *)
Fixpoint animate (ticks : nat) (st : State) : State :=
  match ticks with
  | 0 => st
  | S ticks' => if typingIntervalRef st then animate ticks' (tick st) else st
  end.

(** The effect that force-completes typing when the user hits stop. *)
Definition forceCompleteEffect (st : State) : State :=
  if negb enableTyping || negb forceCompleteTyping then st
  else callOnTypingDone (mkState content false (i st) (typingDoneCalls st)).

(** [displayedContent.length === content.length]: the row of action
    buttons is rendered. *)
Definition actionsShown (st : State) : bool :=
  length (displayedContent st) =? length content.
End MessageBubble.

(** [MessageList]: the typing props of the bubble at [idx]. *)
Section MessageList.
Variable messages : list ChatMessage.
Variable isAssistantTyping : bool.
Variable forceCompleteTyping : bool.

Definition isLastAssistant (idx : nat) (msg : ChatMessage) : bool :=
  (S idx =? length messages) && bool_decide (role msg = assistant).

Definition enableTypingAt (idx : nat) (msg : ChatMessage) : bool :=
  isLastAssistant idx msg && isAssistantTyping.

Definition forceCompleteAt (idx : nat) (msg : ChatMessage) : bool :=
  isLastAssistant idx msg && forceCompleteTyping.

(** The bubble of [msg] at [idx] once its typing effect has run. *)
Definition rendered (idx : nat) (msg : ChatMessage) : State :=
  typingEffect (content msg) (bool_decide (role msg = user))
    (enableTypingAt idx msg) (isLastAssistant idx msg) mounted.
End MessageList.

End Bubble.

(* ------------------------------------------------------------------------- *)
(** ** Vocabulary of the statements *)
(* ------------------------------------------------------------------------- *)

Section Vocabulary.
Import Js Backend Chat.

(** Strings of 7-bit code units: UTF-8 is the identity on them. *)
Definition sevenBit (s : list N) : Prop := Forall (fun ch => (ch < 0x80)%N) s.

(** A decoder between sequences. *)
Definition idle (d : Decoder) : Prop := bytesNeeded d = 0%N.

(** The text cut in pieces of five code units, the last one shorter when
    the length is no multiple of five. *)
Definition pieces (text : jsstring) : list jsstring :=
  (fun j => slice text (5 * j) (5 * j + 5))
    <$> seq 0 ((length text + 4) / 5).

(** The number of runs of the callback, among the first [n] starting at
    run [from], that come before the first one to read
    [signal.aborted = true]. *)
Fixpoint quietRuns (signal : AbortSignal) (n from : nat) : nat :=
  match n with
  | 0 => 0
  | S n' =>
      if aborted signal from then 0
      else S (quietRuns signal n' (S from))
  end.

(** The state before run [n] when no earlier run read an abort. *)
Definition before (text : jsstring) (n : nat) : Source :=
  mkSource (5 * n) true false (encode <$> take n (pieces text)).

(** The state once the interval is cleared after [m] enqueued chunks. *)
Definition cleared (text : jsstring) (m : nat) : Source :=
  mkSource (5 * m) false true (encode <$> take m (pieces text)).

(** What the read loop appends to [full]: the chunks, decoded in order by
    one streaming decoder. *)
Fixpoint decodeChunks (d : Decoder) (pending : list (list N)) : jsstring :=
  match pending with
  | [] => []
  | value :: rest =>
      snd (decode d value) ++ decodeChunks (fst (decode d value)) rest
  end.

(** [w] with [n] more awaits counted. *)
Definition suspended (n : nat) (w : World) : World :=
  mkWorld (ui w) (tray w) (modalUrl w) (effects w) (controllers w)
          (n + awaits w).

(** The chat the stream is requested for: the one of the render, or the one
    [createChat] answers with. *)
Definition chatIdAvailable `{ChatApi} (c : ChatState) (prompt id : jsstring)
  : Prop :=
  truthy id = true /\
  (chatId c = Some id \/
   (falsy (chatId c) = true /\
    createChat prompt = fulfilled (mkResult (Some (mkChatCreated id)) None))).

(** The failures the capture contract names. *)
Inductive CaptureFailure :=
| CaptureUnsupported
| CaptureTimeout
| CaptureInternal.

(** [err.name] of a failure. *)
Definition failureName (k : CaptureFailure) : jsstring :=
  match k with
  | CaptureUnsupported => lit "CaptureUnsupported"
  | CaptureTimeout => lit "CaptureTimeout"
  | CaptureInternal => lit "CaptureInternal"
  end.

(** The outcomes the capture contract allows. *)
Inductive CaptureOutcome :=
| Captured (dataUrl : jsstring)
| Failed (kind : CaptureFailure).

(** A string that starts as a data URL does. *)
Definition isDataUrl (s : jsstring) : bool :=
  bool_decide (take 5 s = lit "data:").

(** What one invocation amounts to for its caller, read off the promise and
    the attachment sink: a fulfilled promise with exactly one image
    attachment, a data URL, handed to the sink is a capture; a promise
    rejected with one of the named failures is that failure; anything else
    is no outcome of the contract. *)
Definition outcomeOf (before : World) (r : Promise * World)
  : option CaptureOutcome :=
  match settles (fst r) with
  | fulfilled _ =>
      match drop (length (attachments (ui before)))
                 (attachments (ui (snd r))) with
      | [a] =>
          if bool_decide (type a = image) && isDataUrl (data a)
          then Some (Captured (data a)) else None
      | _ => None
      end
  | rejected e =>
      if bool_decide (name e = failureName CaptureUnsupported)
      then Some (Failed CaptureUnsupported)
      else if bool_decide (name e = failureName CaptureTimeout)
      then Some (Failed CaptureTimeout)
      else if bool_decide (name e = failureName CaptureInternal)
      then Some (Failed CaptureInternal)
      else None
  end.

(** The line the placeholder writes. *)
Definition captureLine : Effect :=
  ConsoleLog
    (lit "Capture clicked - functionality to be implemented by candidate.").

(** A signal that never reads aborted. *)
Definition neverAborted : AbortSignal := mkSignal (fun _ => false).

(** The props [TradeView] passes. *)
Definition tradeProps : Props := mkProps None (Some trade_mode).


(** The sink, called for each element of [atts] in turn. *)
Definition addAll (atts : list (option Attachment)) (w : World) : World :=
  foldl (fun w a => handleSetAttachment a w) w atts.

(** The attachments among the arguments, [null] left out. *)
Definition given (atts : list (option Attachment)) : list Attachment :=
  omap id atts.

(** A chat with a response loading, as a render sees it. *)
Definition loadingChat : ChatState :=
  mkChat None [] true None [] false None false [] false false.

(** Two attachments and a [null] handed to the sink of the fresh chat. *)
Definition twoAttachments : list (option Attachment) :=
  [Some (mkAttachment file (lit "trades.csv")); None;
   Some (mkAttachment url (lit "https://example.com/btc"))].

(** The chunks the mock sends under [signal]. *)
Definition sent (signal : AbortSignal) : list (list N) :=
  take (quietRuns signal 25 0) (pieces reply).

(** A signal that reads aborted from the run numbered 3 on. *)
Definition abortedAtThird : AbortSignal :=
  mkSignal (fun n => 3 <=? n).

(** The user message and the partial reply of the submit whose stream is
    cut at the run numbered 3. *)
Definition cutTranscript : list ChatMessage :=
  [mkMessage user (lit "explain this move") (Some []);
   mkMessage assistant (lit "This is a mock ") None].

(** The attachments a message carries. *)
Definition carried (m : ChatMessage) : list Attachment :=
  default [] (msg_attachments m).

(** Every attachment the chat holds: the pending ones and the ones of the
    transcript. *)
Definition allAttachments (s : ChatState) : list Attachment :=
  attachments s ++ (messages s ≫= carried).

(** The attachment an event brings in: the first file picked, or the
    trimmed URL of the webpage modal. *)
Definition entered (e : Event) (w : World) (a : Attachment) : Prop :=
  match e with
  | FileChange files =>
      exists fileName,
        files ≫= head = Some fileName /\ a = mkAttachment file fileName
  | ModalAdd => a = mkAttachment url (trim (modalUrl w))
  | _ => False
  end.
End Vocabulary.

(* ------------------------------------------------------------------------- *)
(** ** Vocabulary of the further statements *)
(* ------------------------------------------------------------------------- *)

Section FurtherVocabulary.
Import Js Backend Chat.

(** The user message an accepted submit appends. *)
Definition userMessage (c : ChatState) (prompt : jsstring) : ChatMessage :=
  mkMessage user prompt (Some (attachments c)).

(** How a submit fails, with the text received until then: [createChat]
    rejects, the request of the stream rejects, the stream breaks while it
    is read, or [text()] of a body-less response rejects. *)
Inductive SubmitFails `{ChatApi} (signals : nat -> AbortSignal)
    (props : Props) (c : ChatState) (prompt : jsstring) (w : World)
  : Error -> jsstring -> Prop :=
| createRejects e :
    falsy (chatId c) = true ->
    createChat prompt = rejected e ->
    SubmitFails signals props c prompt w e []
| requestRejects id e :
    chatIdAvailable c prompt id ->
    streamMessage id prompt (attachments c) (signals (controllers w))
      (mode props) = rejected e ->
    SubmitFails signals props c prompt w e []
| streamBreaks id pending e t :
    chatIdAvailable c prompt id ->
    streamMessage id prompt (attachments c) (signals (controllers w))
      (mode props)
    = fulfilled (mkResponse (Some (mkStream pending (errored e))) t) ->
    SubmitFails signals props c prompt w e (decodeChunks newDecoder pending)
| textRejects id e :
    chatIdAvailable c prompt id ->
    streamMessage id prompt (attachments c) (signals (controllers w))
      (mode props)
    = fulfilled (mkResponse None (rejected e)) ->
    SubmitFails signals props c prompt w e [].

(** [s] neither starts nor ends with white space. *)
Definition trimmed (s : jsstring) : Prop :=
  (forall ch, head s = Some ch -> isWhiteSpace ch = false) /\
  (forall ch, last s = Some ch -> isWhiteSpace ch = false).

(** The message a row of history becomes. *)
Definition ofRow (m : HistoryRow) : ChatMessage :=
  mkMessage
    (if bool_decide (row_role m = lit "assistant") then assistant else user)
    (default [] (row_content m)) None.

(** A backend whose [createChat] answers with an error and no data. *)
Definition refusingApi : ChatApi :=
  Build_ChatApi
    (fun _ => fulfilled (mkResult None (Some (mkError (lit "Error") []))))
    (fun _ => fulfilled (mkResult None None))
    (fun _ _ _ _ _ => rejected (mkError (lit "Error") [])).

(** A backend whose stream breaks with [e] after the chunk [This ]. *)
Definition breakingApi (e : Error) : ChatApi :=
  Build_ChatApi
    (fun _ => fulfilled (mkResult (Some (mkChatCreated (lit "c1"))) None))
    (fun _ =>
       fulfilled
         (mkResult
            (Some [mkRow (lit "assistant") (Some (lit "hello"));
                   mkRow (lit "system") None])
            None))
    (fun _ _ _ _ _ =>
       fulfilled (mkResponse (Some (mkStream [lit "This "] (errored e)))
                    (fulfilled []))).

(** A backend whose request of the stream rejects with [e]. *)
Definition rejectingApi (e : Error) : ChatApi :=
  Build_ChatApi
    (fun _ => fulfilled (mkResult (Some (mkChatCreated (lit "c1"))) None))
    (fun _ => rejected e)
    (fun _ _ _ _ _ => rejected e).

(** The calls a submit makes up to the request of the stream. *)
Definition callsBefore `{ChatApi} (props : Props) (c : ChatState)
    (prompt id : jsstring) : list Effect :=
  (if falsy (chatId c)
   then [CallCreateChat prompt; StartPollingChat id] else [])
  ++ match abortController c with
     | Some old => [Abort (controllerId old)]
     | None => []
     end
  ++ [CallStreamMessage id prompt (attachments c) (mode props)].

(** A backend that answers with a response without body. *)
Definition textApi : ChatApi :=
  Build_ChatApi
    (fun _ => fulfilled (mkResult (Some (mkChatCreated (lit "c1"))) None))
    (fun _ => fulfilled (mkResult (Some []) None))
    (fun _ _ _ _ _ =>
       fulfilled (mkResponse None (fulfilled (lit "Bullish.")))).

(** The console line a failed submit ends with. *)
Definition failureLine (e : Error) : Effect :=
  if bool_decide (name e = lit "AbortError")
  then ConsoleWarn (lit "chat stream aborted by user")
  else ConsoleError (lit "chat error") e.

(** An effect that is a call, not a console line. *)
Definition isCall (x : Effect) : bool :=
  match x with
  | ConsoleLog _ | ConsoleWarn _ | ConsoleError _ _ => false
  | _ => true
  end.

(** What a failed fetch throws, and what an aborted one throws. *)
Definition networkError : Error := mkError (lit "TypeError") (lit "Failed").
Definition abortError : Error := mkError (lit "AbortError") [].

(** A chat that belongs to the conversation [c1]. *)
Definition existingChat : ChatState :=
  mkChat (Some (lit "c1")) [] false None [] false None false [] false false.

(** The world of [existingChat]. *)
Definition existingWorld : World :=
  mkWorld existingChat initialTray [] [] 0 0.

(** A render of [existingChat] that still holds the controller of an
    earlier stream. *)
Definition staleChat : ChatState :=
  mkChat (Some (lit "c1")) [] false (Some (mkController 7 neverAborted)) []
         false None false [] false false.

(** The world of [existingChat] with the controller of an earlier stream
    and a reply being typed. *)
Definition streamingWorld : World :=
  mkWorld
    (mkChat (Some (lit "c1")) [] true
            (Some (mkController 0 neverAborted)) [] false None false []
            true false)
    initialTray [] [] 1 0.

(** The rows of a stored conversation: a reply, a row of another role
    without content, and a question. *)
Definition archive : list HistoryRow :=
  [mkRow (lit "assistant") (Some (lit "hello"));
   mkRow (lit "system") None;
   mkRow (lit "user") (Some (lit "why?"))].

(** A backend that answers [getMessages] with [archive]. *)
Definition archiveApi : ChatApi :=
  Build_ChatApi
    (fun _ => fulfilled (mkResult (Some (mkChatCreated (lit "c1"))) None))
    (fun _ => fulfilled (mkResult (Some archive) None))
    (fun _ _ _ _ _ => rejected networkError).

(** The props of a chat opened on the conversation [c1]. *)
Definition openedProps : Props := mkProps (Some (lit "c1")) (Some trade_mode).

(** The world of [existingChat] after an exchange. *)
Definition talkedWorld : World :=
  mkWorld
    (mkChat (Some (lit "c1")) cutTranscript false None [] false None false []
            false false)
    initialTray [] [] 1 0.

(** The edit form closed, the draft cleared. *)
Definition closeEdit (w : World) : World :=
  onUi (fun s =>
    mkChat (chatId s) (messages s) (isLoading s) (abortController s)
      (attachments s) (isWebpageModalOpen s) (previewImage s)
      false [] (isAssistantTyping s) (forceCompleteTyping s)) w.

End FurtherVocabulary.

(* ------------------------------------------------------------------------- *)
(** ** Facts about strings and the UTF-8 codec *)
(* ------------------------------------------------------------------------- *)

Section JsFacts.
Import Js.

Lemma trimStart_all_whitespace (s : jsstring) :
  forallb isWhiteSpace s = true -> trimStart s = [].
Proof.
  induction s as [|ch s IH]; simpl; [done|].
  intros [Hc Hs]%andb_prop. by rewrite Hc; apply IH.
Qed.

Lemma trimStart_head (s : jsstring) :
  match trimStart s with
  | [] => forallb isWhiteSpace s = true
  | ch :: _ => isWhiteSpace ch = false
  end.
Proof.
  induction s as [|ch s IH]; simpl; [done|].
  destruct (isWhiteSpace ch) eqn:E; simpl; [|done].
  destruct (trimStart s); auto.
Qed.

Lemma forallb_rev {A} (f : A -> bool) (l : list A) :
  forallb f (rev l) = forallb f l.
Proof.
  induction l as [|x l IH]; simpl; [done|].
  rewrite forallb_app, IH; simpl. rewrite andb_true_r. apply andb_comm.
Qed.

(** [!s.trim()] holds exactly of the strings made of white space only. *)
Lemma trim_falsy (s : jsstring) :
  truthy (trim s) = false <-> forallb isWhiteSpace s = true.
Proof.
  unfold trim, trimEnd. split.
  - intros H.
    assert (Hnil : trimStart (rev (trimStart s)) = []).
    { destruct (trimStart (rev (trimStart s))) as [|x r] eqn:E; [done|].
      simpl in H. destruct (rev r); discriminate H. }
    pose proof (trimStart_head (rev (trimStart s))) as H1.
    rewrite Hnil, forallb_rev in H1.
    pose proof (trimStart_head s) as H2.
    destruct (trimStart s) as [|ch r]; [done|].
    simpl in H1. rewrite H2 in H1. discriminate H1.
  - intros H. by rewrite (trimStart_all_whitespace s H).
Qed.


Lemma sevenBit_lit (s : string) :
  forallb (fun ch => (ch <? 0x80)%N) (lit s) = true -> sevenBit (lit s).
Proof.
  intros H. apply Forall_forall. intros ch Hin.
  rewrite forallb_forall in H. apply N.ltb_lt, H.
  by apply list_elem_of_In.
Qed.

Lemma sevenBit_take n s : sevenBit s -> sevenBit (take n s).
Proof. apply Forall_take. Qed.

Lemma sevenBit_drop n s : sevenBit s -> sevenBit (drop n s).
Proof. apply Forall_drop. Qed.

Lemma sevenBit_slice s a b : sevenBit s -> sevenBit (slice s a b).
Proof. intros H. by apply sevenBit_take, sevenBit_drop. Qed.

Lemma scalars_sevenBit s : sevenBit s -> scalars s = s.
Proof.
  induction 1 as [|ch s Hc _ IH]; simpl; [done|].
  unfold isLead, isTrail.
  destruct (N.leb_spec 0xD800 ch); [lia|]. simpl.
  destruct (N.leb_spec 0xDC00 ch); [lia|]. simpl.
  by rewrite IH.
Qed.

Lemma encode_sevenBit s : sevenBit s -> encode s = s.
Proof.
  intros H. unfold encode. rewrite (scalars_sevenBit s H).
  induction H as [|ch s Hc _ IH]; simpl; [done|].
  rewrite IH. unfold utf8. by destruct (N.ltb_spec ch 0x80); [|lia].
Qed.

Lemma decodeBytes_sevenBit d bs :
  bytesNeeded d = 0%N -> sevenBit bs -> decodeBytes d bs = (d, bs).
Proof.
  intros Hd H. induction H as [|b bs Hb _ IH]; simpl; [done|].
  unfold decodeByte, leadByte. rewrite Hd. simpl.
  destruct (N.leb_spec b 0x7F); [|lia].
  by rewrite IH.
Qed.

Lemma serialize_sevenBit seen s :
  sevenBit s ->
  serialize seen s = (seen || bool_decide (s ≠ []), s).
Proof.
  intros H. revert seen. induction H as [|ch s Hc _ IH]; intros seen; simpl.
  - by rewrite orb_false_r.
  - destruct (N.eqb_spec ch 0xFEFF); [lia|].
    rewrite andb_false_r, IH. unfold units.
    destruct (N.ltb_spec ch 0x10000); [|lia].
    simpl. by rewrite orb_true_r.
Qed.


Lemma decode_sevenBit d bs :
  idle d -> sevenBit bs ->
  snd (decode d bs) = bs /\ idle (fst (decode d bs)).
Proof.
  intros Hd H. unfold decode.
  rewrite (decodeBytes_sevenBit d bs Hd H), (serialize_sevenBit _ bs H).
  by simpl.
Qed.

Lemma decodeWhole_sevenBit bs : sevenBit bs -> decodeWhole bs = bs.
Proof.
  intros H. unfold decodeWhole.
  rewrite (decodeBytes_sevenBit newDecoder bs eq_refl H). simpl.
  rewrite app_nil_r. by rewrite (serialize_sevenBit _ bs H).
Qed.
End JsFacts.

(* ------------------------------------------------------------------------- *)
(** ** The mock stream *)
(* ------------------------------------------------------------------------- *)

Section StreamFacts.
Import Js Backend.


Lemma quietRuns_le signal n from : quietRuns signal n from <= n.
Proof.
  revert from. induction n as [|n IH]; intros from; simpl; [lia|].
  destruct (aborted signal from); [lia|]. specialize (IH (S from)). lia.
Qed.

Variable text : jsstring.
Variable signal : AbortSignal.

Let count := (length text + 4) / 5.

Lemma count_spec n : length text <= 5 * n <-> count <= n.
Proof.
  unfold count.
  pose proof (Nat.div_mod_eq (length text + 4) 5).
  pose proof (Nat.mod_upper_bound (length text + 4) 5). lia.
Qed.

Lemma length_pieces : length (pieces text) = count.
Proof. unfold pieces. by rewrite length_fmap, length_seq. Qed.

Lemma pieces_lookup j :
  j < count -> pieces text !! j = Some (slice text (5 * j) (5 * j + 5)).
Proof.
  intros Hj. unfold pieces. rewrite list_lookup_fmap.
  assert (seq 0 ((length text + 4) / 5) !! j = Some j) as ->; [|done].
  apply lookup_seq. by split.
Qed.

Lemma runInterval_cleared fuel n s :
  interval s = false -> runInterval text signal fuel n s = s.
Proof. intros H. destruct fuel; simpl; [done|]. by rewrite H. Qed.


Lemma callback_before ab n :
  callback text ab (before text n)
  = if ab then cleared text n
    else if length text <=? 5 * n then cleared text n
    else mkSource (5 * n + 5) true false
           ((encode <$> take n (pieces text))
              ++ [encode (slice text (5 * n) (5 * n + 5))]).
Proof. reflexivity. Qed.

Lemma runInterval_step fuel n s :
  runInterval text signal (S fuel) n s
  = if interval s
    then runInterval text signal fuel (S n)
           (callback text (aborted signal n) s)
    else s.
Proof. reflexivity. Qed.

Lemma quietRuns_aborted n m :
  aborted signal n = true -> quietRuns signal m n = 0.
Proof. intros H. destruct m; simpl; [done|]. by rewrite H. Qed.

Lemma runInterval_before fuel n :
  n <= count -> count < fuel + n ->
  runInterval text signal fuel n (before text n)
  = cleared text (n + quietRuns signal (count - n) n).
Proof.
  revert n. induction fuel as [|fuel IH]; intros n Hn Hfuel; [lia|].
  rewrite runInterval_step. change (interval (before text n)) with true.
  cbv iota. rewrite callback_before.
  destruct (aborted signal n) eqn:Hab.
  - rewrite runInterval_cleared by done.
    by rewrite (quietRuns_aborted n _ Hab), Nat.add_0_r.
  - destruct (Nat.leb_spec (length text) (5 * n)) as [Hlen|Hlen].
    + rewrite runInterval_cleared by done.
      apply count_spec in Hlen.
      replace (count - n) with 0 by lia.
      by rewrite Nat.add_0_r.
    + assert (n < count) as Hlt.
      { destruct (decide (n < count)); [done|].
        assert (count <= n) as Hc%count_spec by lia. lia. }
      replace (count - n) with (S (count - S n)) by lia.
      cbn [quietRuns]. rewrite Hab.
      replace (n + S (quietRuns signal (count - S n) (S n)))
        with (S n + quietRuns signal (count - S n) (S n)) by lia.
      rewrite <- IH by lia. f_equal. unfold before. f_equal; [lia|].
      rewrite (take_S_r _ _ _ (pieces_lookup n Hlt)).
      by rewrite fmap_app.
Qed.

(** However the signal behaves, the interval is cleared and the stream
    closed within [enoughRuns] runs, and the chunks enqueued are the
    pieces that precede the first aborted run. *)
Lemma runInterval_enough fuel :
  enoughRuns text <= fuel ->
  runInterval text signal fuel 0 start
  = cleared text (quietRuns signal count 0).
Proof.
  intros Hfuel. unfold enoughRuns in Hfuel.
  assert (count <= length text) as Hc.
  { unfold count.
    pose proof (Nat.div_mod_eq (length text + 4) 5).
    pose proof (Nat.mod_upper_bound (length text + 4) 5). lia. }
  change start with (before text 0).
  rewrite runInterval_before by lia.
  by rewrite Nat.sub_0_r.
Qed.

Lemma concat_take_pieces m :
  m <= count -> concat (take m (pieces text)) = take (5 * m) text.
Proof.
  induction m as [|m IH]; intros Hm; [done|].
  rewrite (take_S_r _ _ _ (pieces_lookup m ltac:(lia))).
  rewrite concat_app, IH by lia. simpl. rewrite app_nil_r.
  unfold slice. replace (5 * m + 5 - 5 * m) with 5 by lia.
  rewrite take_take_drop. f_equal. lia.
Qed.

Lemma concat_pieces : concat (pieces text) = text.
Proof.
  rewrite <- (take_ge (pieces text) count) by (by rewrite length_pieces).
  rewrite concat_take_pieces by done.
  apply take_ge. by apply count_spec.
Qed.

Lemma pieces_bounded :
  Forall (fun p => 1 <= length p <= 5) (pieces text).
Proof.
  apply Forall_lookup. intros j p Hp.
  assert (j < count) as Hj.
  { rewrite <- length_pieces. by eapply lookup_lt_Some. }
  rewrite (pieces_lookup j Hj) in Hp. injection Hp as <-.
  unfold slice. rewrite length_take, length_drop.
  assert (~ length text <= 5 * j) by (rewrite count_spec; lia). lia.
Qed.
End StreamFacts.

(* ------------------------------------------------------------------------- *)
(** ** The submit handler *)
(* ------------------------------------------------------------------------- *)

Section ReadLoopFacts.
Import Js Backend Chat.


(** The read loop touches no state: it fills [full] and ends as the stream
    ends. *)
Lemma readLoop_eq d pending fin l w :
  readLoop d pending fin l w
  = (match fin with closed => normal tt | errored e => throwing e end,
     mkLocals (activeChatId l) (full l ++ decodeChunks d pending),
     suspended (S (length pending)) w).
Proof.
  revert d l w. induction pending as [|value rest IH]; intros d l w.
  - simpl. rewrite app_nil_r. destruct l, fin; reflexivity.
  - cbn [readLoop decodeChunks length].
    unfold mbind, Body_bind, await. cbn beta iota.
    destruct (decode d value) as [d' decoded] eqn:E. cbn [fst snd].
    unfold setLocals at 1. cbn beta iota.
    rewrite IH. cbn [activeChatId full].
    rewrite <- app_assoc.
    unfold suspended; cbn. repeat f_equal. lia.
Qed.

Lemma decodeChunks_sevenBit d pending :
  idle d -> Forall sevenBit pending ->
  decodeChunks d pending = concat pending.
Proof.
  intros Hd H. revert d Hd.
  induction H as [|value rest Hv _ IH]; intros d Hd; [done|].
  simpl. destruct (decode_sevenBit d value Hd Hv) as [-> Hd'].
  by rewrite IH.
Qed.

End ReadLoopFacts.

(** One step through a handler body: the read loop is replaced by what it
    computes, the innermost case distinction is made. *)
Ltac body_step :=
  match goal with
  | |- context [Chat.readLoop ?d ?p ?f ?l ?w] => rewrite (readLoop_eq d p f l w)
  | |- context [match ?x with _ => _ end] =>
      lazymatch x with
      | context [match _ with _ => _ end] => fail
      | _ => destruct x eqn:?
      end
  end; cbn.

Ltac unfold_body :=
  unfold Chat.tryCatchFinally, mbind, Chat.Body_bind, Chat.await; cbn.

Ltac split_effects H :=
  repeat (apply elem_of_app in H as [H|H]);
  try (apply list_elem_of_singleton in H).

Section SubmitFacts.
Import Js Backend Chat.

Context {api : ChatApi}.
Variable signals : nat -> AbortSignal.
Variable props : Props.

(** A refused submit does nothing at all, and its promise is settled when
    the call returns. *)
Lemma handleSubmit_refused c prompt w :
  submitRefused c prompt = true ->
  handleSubmit signals props c prompt w = (mkPromise (fulfilled tt) false, w).
Proof.
  intros Hg. unfold handleSubmit, async. rewrite Hg. cbn.
  by rewrite Nat.eqb_refl.
Qed.

(** An accepted submit, whatever the backend answers: the user message is
    appended with the attachments of the render, at most one assistant
    message follows it, and the pending attachments are emptied. *)
Lemma handleSubmit_accepted c prompt w :
  submitRefused c prompt = false ->
  let w' := snd (handleSubmit signals props c prompt w) in
  attachments (ui w') = [] /\
  exists tail,
    messages (ui w')
    = messages (ui w) ++ [mkMessage user prompt (Some (attachments c))] ++ tail
    /\ (tail = [] \/ exists txt, tail = [mkMessage assistant txt None]).
Proof.
  intros Hg. unfold handleSubmit, async. rewrite Hg. unfold_body.
  repeat body_step.
  all: split; [reflexivity|].
  all: eexists; rewrite <- ?app_assoc; split; [reflexivity|]; eauto.
Qed.


(** An accepted submit whose stream is delivered: what the transcript and
    the flags are when the handler is done. *)
Lemma handleSubmit_streamed c prompt w id pending fin t :
  submitRefused c prompt = false ->
  chatIdAvailable c prompt id ->
  streamMessage id prompt (attachments c) (signals (controllers w))
    (mode props)
  = fulfilled (mkResponse (Some (mkStream pending fin)) t) ->
  let partial := decodeChunks newDecoder pending in
  let r := handleSubmit signals props c prompt w in
  let answered :=
    match fin with
    | closed => true
    | errored e => bool_decide (name e = lit "AbortError") && truthy partial
    end in
  settles (fst r) = fulfilled tt /\
  messages (ui (snd r))
  = messages (ui w) ++ [mkMessage user prompt (Some (attachments c))]
      ++ (if answered then [mkMessage assistant partial None] else []) /\
  attachments (ui (snd r)) = [] /\
  isLoading (ui (snd r)) = false /\
  abortController (ui (snd r)) = None /\
  isAssistantTyping (ui (snd r))
  = (if answered then true else isAssistantTyping (ui w)) /\
  forceCompleteTyping (ui (snd r))
  = (if answered then false else forceCompleteTyping (ui w)) /\
  forall msg err,
    ConsoleError msg err ∈ effects (snd r) ->
    ConsoleError msg err ∈ effects w \/
    (fin = errored err /\ name err <> lit "AbortError").
Proof.
  intros Hg [Hid Hsrc] Hstream. unfold handleSubmit, async. rewrite Hg.
  unfold_body.
  destruct Hsrc as [Hc|[Hc Hcreate]].
  - rewrite Hc. cbn. rewrite Hid. cbn.
    destruct (abortController c); cbn; rewrite Hstream; cbn;
      rewrite readLoop_eq; cbn; destruct fin as [|e]; cbn.
    all: try destruct (bool_decide (name e = lit "AbortError")) eqn:Hname; cbn.
    all: try destruct (truthy (decodeChunks newDecoder pending)) eqn:Hfull; cbn.
    all: rewrite <- ?app_assoc; repeat (split; [reflexivity|]).
    all: try apply bool_decide_eq_false in Hname.
    all: intros msg err Hin; split_effects Hin; auto; try discriminate Hin.
    all: injection Hin as _ ->; auto.
  - rewrite Hc. cbn. rewrite Hcreate. cbn. rewrite Hid. cbn.
    destruct (abortController c); cbn; rewrite Hstream; cbn;
      rewrite readLoop_eq; cbn; destruct fin as [|e]; cbn.
    all: try destruct (bool_decide (name e = lit "AbortError")) eqn:Hname; cbn.
    all: try destruct (truthy (decodeChunks newDecoder pending)) eqn:Hfull; cbn.
    all: rewrite <- ?app_assoc; repeat (split; [reflexivity|]).
    all: try apply bool_decide_eq_false in Hname.
    all: intros msg err Hin; split_effects Hin; auto; try discriminate Hin.
    all: injection Hin as _ ->; auto.
Qed.
End SubmitFacts.

(* ------------------------------------------------------------------------- *)
(** ** The capture trigger *)
(* ------------------------------------------------------------------------- *)

Section CaptureFacts.
Import Js Backend Chat.


Lemma handleCaptureClick_eq w :
  handleCaptureClick w = (mkPromise (fulfilled tt) false, emit captureLine w).
Proof.
  unfold handleCaptureClick, async. cbn. by rewrite Nat.eqb_refl.
Qed.

Lemma drop_length_self {A} (l : list A) : drop (length l) l = [].
Proof. by apply drop_ge. Qed.

Context {api : ChatApi}.
Variable signals : nat -> AbortSignal.
Variable props : Props.

Lemma dispatch_CameraClick w :
  dispatch signals props CameraClick w
  = if negb (isEditingPrompt (ui w)) && negb (isCapturing (tray w))
    then emit captureLine w else w.
Proof.
  unfold dispatch, floating. rewrite handleCaptureClick_eq.
  by destruct (negb (isEditingPrompt (ui w)) && negb (isCapturing (tray w))).
Qed.
End CaptureFacts.

(** C1, as the code has it: every invocation of [handleCaptureClick]
    returns a promise that is fulfilled with no value; all the handler does
    is write one console line.  No image is produced or handed to the
    attachment sink, no failure is raised, typed or not, and the state of
    the components is unchanged: the invocation has none of the outcomes of
    the capture contract. *)
Theorem capture_is_a_placeholder (w : Chat.World) :
  let r := Chat.handleCaptureClick w in
  Chat.settles (fst r) = Js.fulfilled tt /\
  Chat.ui (snd r) = Chat.ui w /\
  Chat.tray (snd r) = Chat.tray w /\
  Chat.effects (snd r) = Chat.effects w ++ [captureLine] /\
  outcomeOf w r = None.
Proof.
  cbv zeta. rewrite handleCaptureClick_eq. cbn [fst snd Chat.settles].
  repeat split.
  unfold outcomeOf. cbn. by rewrite drop_length_self.
Qed.

(** C1 fails as stated: on the freshly mounted chat the invocation resolves
    to neither an image nor a typed failure. *)
Lemma capture_outcome_absent :
  ~ (exists o,
       outcomeOf (Chat.initialWorld tradeProps)
         (Chat.handleCaptureClick (Chat.initialWorld tradeProps)) = Some o).
Proof. intros [o H]. vm_compute in H. discriminate H. Qed.



(** C4: a capture invocation adds no attachment, however its promise
    settles, so in particular when it fails: the pending attachments after
    it are the ones before it, in number and in content.  The same holds of
    the click on the camera button, enabled or not. *)
Theorem failed_capture_adds_nothing `{Backend.ChatApi}
    (signals : nat -> Backend.AbortSignal) (props : Chat.Props)
    (w : Chat.World) :
  Chat.attachments (Chat.ui (snd (Chat.handleCaptureClick w)))
  = Chat.attachments (Chat.ui w) /\
  length (Chat.attachments (Chat.ui (snd (Chat.handleCaptureClick w))))
  = length (Chat.attachments (Chat.ui w)) /\
  Chat.attachments (Chat.ui (Chat.dispatch signals props Chat.CameraClick w))
  = Chat.attachments (Chat.ui w).
Proof.
  rewrite dispatch_CameraClick, handleCaptureClick_eq.
  repeat split.
  by destruct (negb (Chat.isEditingPrompt (Chat.ui w))
               && negb (Chat.isCapturing (Chat.tray w))).
Qed.

(* ------------------------------------------------------------------------- *)
(** ** The pending attachments *)
(* ------------------------------------------------------------------------- *)

Section AttachmentFacts.
Import Js Backend Chat.

Lemma filterOutIndex_before {A} index from (l : list A) :
  index < from -> filterOutIndex index from l = l.
Proof.
  revert from. induction l as [|x l IH]; intros from Hlt; [done|].
  cbn [filterOutIndex].
  destruct (Nat.eqb_spec from index); [lia|].
  cbn. f_equal. apply IH. lia.
Qed.

Lemma filterOutIndex_delete {A} index from (l : list A) :
  from <= index -> filterOutIndex index from l = delete (index - from) l.
Proof.
  revert from. induction l as [|x l IH]; intros from Hle; [done|].
  cbn [filterOutIndex].
  destruct (Nat.eqb_spec from index) as [->|Hne]; cbn.
  - rewrite Nat.sub_diag. cbn. apply filterOutIndex_before. lia.
  - replace (index - from) with (S (index - S from)) by lia.
    cbn. f_equal. apply IH. lia.
Qed.


Lemma addAll_attachments atts w :
  attachments (ui (addAll atts w)) = attachments (ui w) ++ given atts.
Proof.
  revert w. induction atts as [|a atts IH]; intros w.
  - cbn. by rewrite app_nil_r.
  - cbn [addAll foldl]. fold (addAll atts (handleSetAttachment a w)).
    rewrite IH. destruct a as [a|]; cbn; [|done].
    by rewrite <- app_assoc.
Qed.

Lemma addAll_messages atts w :
  messages (ui (addAll atts w)) = messages (ui w).
Proof.
  revert w. induction atts as [|a atts IH]; intros w; [done|].
  cbn [addAll foldl]. fold (addAll atts (handleSetAttachment a w)).
  rewrite IH. by destruct a.
Qed.
End AttachmentFacts.

(** C10: removing the pending attachment at a valid index [index] removes
    exactly that element: the list becomes the elements before [index]
    followed by the elements after it, one shorter, every other element at
    its place or one place down, and nothing else in the state changes. *)
Theorem removeAtIndex_removes_exactly_one
    (w : Chat.World) (index : nat) :
  index < length (Chat.attachments (Chat.ui w)) ->
  let old := Chat.attachments (Chat.ui w) in
  let new := Chat.attachments (Chat.ui (Chat.removeAtIndex index w)) in
  new = take index old ++ drop (S index) old /\
  S (length new) = length old /\
  (forall j, j < index -> new !! j = old !! j) /\
  (forall j, index <= j -> new !! j = old !! S j) /\
  Chat.messages (Chat.ui (Chat.removeAtIndex index w))
  = Chat.messages (Chat.ui w) /\
  Chat.isLoading (Chat.ui (Chat.removeAtIndex index w))
  = Chat.isLoading (Chat.ui w) /\
  Chat.effects (Chat.removeAtIndex index w) = Chat.effects w.
Proof.
  intros Hlt old new.
  assert (new = delete index old) as Hnew.
  { subst new old. cbn.
    rewrite filterOutIndex_delete by lia. by rewrite Nat.sub_0_r. }
  rewrite Hnew. clear Hnew new. subst old. repeat split.
  - apply delete_take_drop.
  - rewrite length_delete; [lia|]. by apply lookup_lt_is_Some_2.
  - intros j Hj. by apply list_lookup_delete_lt.
  - intros j Hj. by apply list_lookup_delete_ge.
Qed.

Lemma removeAtIndex_removes_exactly_one_witness :
  1 < length [mkAttachment file (Js.lit "a.csv");
              mkAttachment url (Js.lit "https://example.com");
              mkAttachment file (Js.lit "b.csv")] /\
  Chat.attachments
    (Chat.ui
       (Chat.removeAtIndex 1
          (addAll
             [Some (mkAttachment file (Js.lit "a.csv"));
              Some (mkAttachment url (Js.lit "https://example.com"));
              Some (mkAttachment file (Js.lit "b.csv"))]
             (Chat.initialWorld tradeProps))))
  = [mkAttachment file (Js.lit "a.csv"); mkAttachment file (Js.lit "b.csv")].
Proof.
  split; [cbn; lia|].
  apply (proj1 (removeAtIndex_removes_exactly_one
                  (addAll
                     [Some (mkAttachment file (Js.lit "a.csv"));
                      Some (mkAttachment url (Js.lit "https://example.com"));
                      Some (mkAttachment file (Js.lit "b.csv"))]
                     (Chat.initialWorld tradeProps)) 1 ltac:(cbn; lia))).
Defined.

Section GuardFacts.
Import Js Backend Chat.

(** The guard of [handleSubmit], in words: a response is loading, or the
    prompt is blank and nothing is attached. *)
Lemma submitRefused_true c prompt :
  submitRefused c prompt = true <->
  isLoading c = true \/
  (forallb isWhiteSpace prompt = true /\ attachments c = []).
Proof.
  unfold submitRefused.
  rewrite orb_true_iff, andb_true_iff, negb_true_iff, trim_falsy,
    Nat.eqb_eq.
  split; (intros [H|[H1 H2]]; [by left|right; split; [done|]]).
  - by destruct (attachments c).
  - by rewrite H2.
Qed.

Lemma submitRefused_false c prompt :
  submitRefused c prompt = false <->
  isLoading c = false /\
  (forallb isWhiteSpace prompt = false \/ attachments c <> []).
Proof.
  unfold submitRefused.
  rewrite orb_false_iff, andb_false_iff, negb_false_iff, Nat.eqb_neq.
  pose proof (trim_falsy prompt) as Htrim.
  split; (intros [Hl Hrest]; split; [done|]).
  - destruct Hrest as [Ht|Hn]; [left|right].
    + destruct (forallb isWhiteSpace prompt); [|done].
      destruct Htrim as [_ Htrim]. rewrite Htrim in Ht; done.
    + intros E. by rewrite E in Hn.
  - destruct Hrest as [Hw|Hn]; [left|right].
    + destruct (truthy (trim prompt)); [done|].
      destruct Htrim as [Htrim _]. rewrite Htrim in Hw; done.
    + by destruct (attachments c).
Qed.

(** The form of the tray hands its prompt to [handleSubmit] and clears its
    own [prompt] cell, also when the submit is refused. *)
Lemma refused_form_submit_clears_prompt `{ChatApi} signals props w :
  isEditingPrompt (ui w) = false ->
  submitRefused (ui w) (prompt (tray w)) = true ->
  dispatch signals props FormSubmit w
  = onTray (fun t => mkTray [] (isCapturing t)) w.
Proof.
  intros Hshown Hg. unfold dispatch. rewrite Hshown. cbn [negb].
  unfold handleFormSubmit, handler, call, floating. unfold_body.
  by rewrite (handleSubmit_refused signals props _ _ _ Hg).
Qed.

(** The stop button aborts the controller of the render and resets flags;
    it leaves the transcript and the pending attachments alone. *)
Lemma handleStopStreaming_keeps_transcript c w :
  messages (ui (handleStopStreaming c w)) = messages (ui w) /\
  attachments (ui (handleStopStreaming c w)) = attachments (ui w) /\
  (forall ctl, abortController c = Some ctl ->
     Abort (controllerId ctl) ∈ effects (handleStopStreaming c w)).
Proof.
  unfold handleStopStreaming, handler. unfold_body.
  destruct (abortController c) as [ctl|], (isAssistantTyping c); cbn.
  all: repeat split; try done.
  all: intros ? [= <-]; apply elem_of_app; right; apply list_elem_of_here.
Qed.
End GuardFacts.


(** C9: a submit made while a response is loading, or with a prompt of
    white space only while nothing is attached, is a complete no-op: the
    world after it is the world before it (transcript, pending
    attachments, loading flag, every other cell, no effect, no backend
    call), and the promise returned is already fulfilled. *)
Theorem refused_submit_is_noop `{Backend.ChatApi}
    (signals : nat -> Backend.AbortSignal) (props : Chat.Props)
    (c : Chat.ChatState) (prompt : Js.jsstring) (w : Chat.World) :
  Chat.isLoading c = true \/
  (forallb Js.isWhiteSpace prompt = true /\ Chat.attachments c = []) ->
  Chat.handleSubmit signals props c prompt w
  = (Chat.mkPromise (Js.fulfilled tt) false, w).
Proof.
  intros Hg. apply handleSubmit_refused. by apply submitRefused_true.
Qed.

Lemma refused_submit_is_noop_witness :
  (Chat.isLoading loadingChat = true /\
   Chat.handleSubmit (fun _ => neverAborted) tradeProps loadingChat
     (Js.lit "explain this move") (Chat.initialWorld tradeProps)
   = (Chat.mkPromise (Js.fulfilled tt) false, Chat.initialWorld tradeProps)) /\
  (forallb Js.isWhiteSpace [0x20; 0x09; 0x0A; 0xA0]%N = true /\
   Chat.attachments (Chat.initialChat tradeProps) = [] /\
   Chat.handleSubmit (fun _ => neverAborted) tradeProps
     (Chat.initialChat tradeProps) [0x20; 0x09; 0x0A; 0xA0]%N
     (Chat.initialWorld tradeProps)
   = (Chat.mkPromise (Js.fulfilled tt) false, Chat.initialWorld tradeProps)).
Proof.
  split.
  - split; [reflexivity|].
    apply refused_submit_is_noop. left. reflexivity.
  - split; [reflexivity|]. split; [reflexivity|].
    apply refused_submit_is_noop. right. split; reflexivity.
Defined.

(** C5: the sink appends each attachment it is given to the pending list;
    the next accepted submit (no response loading, and a prompt that is not
    blank or something attached) puts a user message in the transcript
    that carries exactly the pending attachments, in the order they were
    added, followed by at most the assistant's reply; the pending list is
    empty afterwards. *)
Theorem pending_attachments_go_with_next_message `{Backend.ChatApi}
    (signals : nat -> Backend.AbortSignal) (props : Chat.Props)
    (atts : list (option Attachment)) (prompt : Js.jsstring)
    (w : Chat.World) :
  Chat.isLoading (Chat.ui w) = false ->
  forallb Js.isWhiteSpace prompt = false
  \/ Chat.attachments (Chat.ui w) ++ given atts <> [] ->
  let w1 := addAll atts w in
  let w2 := snd (Chat.handleSubmit signals props (Chat.ui w1) prompt w1) in
  Chat.attachments (Chat.ui w1) = Chat.attachments (Chat.ui w) ++ given atts /\
  (exists tail,
     Chat.messages (Chat.ui w2)
     = Chat.messages (Chat.ui w)
         ++ [mkMessage user prompt
               (Some (Chat.attachments (Chat.ui w) ++ given atts))]
         ++ tail
     /\ (tail = [] \/ exists txt, tail = [mkMessage assistant txt None])) /\
  Chat.attachments (Chat.ui w2) = [].
Proof.
  intros Hload Hsome w1 w2.
  assert (Chat.attachments (Chat.ui w1)
          = Chat.attachments (Chat.ui w) ++ given atts) as Hatts
    by apply addAll_attachments.
  assert (Chat.submitRefused (Chat.ui w1) prompt = false) as Hg.
  { apply submitRefused_false. rewrite Hatts. split; [|done].
    subst w1. clear -Hload. revert w Hload.
    induction atts as [|a atts IH]; intros w Hload; [done|].
    apply IH. by destruct a. }
  destruct (handleSubmit_accepted signals props (Chat.ui w1) prompt w1 Hg)
    as [Hempty [tail [Hmsgs Htail]]].
  split; [done|]. split; [|done].
  exists tail. split; [|done].
  fold w2 in Hmsgs. rewrite Hmsgs, Hatts.
  subst w1. by rewrite addAll_messages.
Qed.


Lemma pending_attachments_go_with_next_message_witness :
  Chat.isLoading (Chat.ui (Chat.initialWorld tradeProps)) = false /\
  forallb Js.isWhiteSpace (Js.lit "explain this move") = false /\
  Chat.attachments
    (Chat.ui
       (snd (Chat.handleSubmit (fun _ => neverAborted) tradeProps
               (Chat.ui (addAll twoAttachments (Chat.initialWorld tradeProps)))
               (Js.lit "explain this move")
               (addAll twoAttachments (Chat.initialWorld tradeProps)))))
  = [].
Proof.
  split; [reflexivity|]. split; [reflexivity|].
  apply (pending_attachments_go_with_next_message
           (fun _ => neverAborted) tradeProps twoAttachments
           (Js.lit "explain this move") (Chat.initialWorld tradeProps)
           eq_refl (or_introl eq_refl)).
Defined.

(* ------------------------------------------------------------------------- *)
(** ** The canned reply and its stream *)
(* ------------------------------------------------------------------------- *)

Section ReplyFacts.
Import Js Backend Chat.

Lemma reply_length : length reply = 121.
Proof. reflexivity. Qed.

Lemma reply_sevenBit : sevenBit reply.
Proof. apply sevenBit_lit. vm_compute. reflexivity. Qed.

Lemma pieces_sevenBit text : sevenBit text -> Forall sevenBit (pieces text).
Proof.
  intros H. unfold pieces. apply Forall_fmap, Forall_forall.
  intros j _. by apply sevenBit_slice.
Qed.

(** The chunks enqueued are the encoded pieces; for a 7-bit text they are
    the pieces themselves. *)
Lemma encode_pieces text m :
  sevenBit text -> encode <$> take m (pieces text) = take m (pieces text).
Proof.
  intros H. rewrite <- (list_fmap_id (take m (pieces text))) at 2.
  apply Forall_fmap_ext_1.
  eapply Forall_impl; [apply Forall_take, (pieces_sevenBit text H)|].
  intros p Hp. by apply encode_sevenBit.
Qed.
End ReplyFacts.

Section MockFacts.
Import Js Backend Chat.

Lemma quietRuns_all signal m from :
  (forall n, n < m -> aborted signal (from + n) = false) ->
  quietRuns signal m from = m.
Proof.
  revert from. induction m as [|m IH]; intros from Hq; [done|].
  cbn [quietRuns]. rewrite <- (Nat.add_0_r from) at 1.
  rewrite Hq by lia. f_equal. apply IH.
  intros n Hn. replace (S from + n) with (from + S n) by lia.
  apply Hq. lia.
Qed.

Lemma quietRuns_until signal m from n :
  aborted signal n = true -> from <= n ->
  from + quietRuns signal m from <= n.
Proof.
  revert from. induction m as [|m IH]; intros from Hab Hle; cbn [quietRuns].
  - lia.
  - destruct (aborted signal from) eqn:E; [lia|].
    assert (from <> n) by (intros ->; congruence).
    specialize (IH (S from) Hab). lia.
Qed.


Lemma mock_source signal fuel :
  enoughRuns reply <= fuel ->
  runInterval reply signal fuel 0 start
  = mkSource (5 * quietRuns signal 25 0) false true (sent signal).
Proof.
  intros Hfuel. rewrite (runInterval_enough reply signal fuel Hfuel).
  unfold cleared. rewrite reply_length. change ((121 + 4) / 5) with 25.
  by rewrite (encode_pieces reply _ reply_sevenBit).
Qed.

Lemma sent_sevenBit signal : Forall sevenBit (sent signal).
Proof. apply Forall_take, pieces_sevenBit, reply_sevenBit. Qed.

Lemma mock_streamMessage id prompt atts signal mode :
  streamMessage id prompt atts signal mode
  = fulfilled (mkResponse (Some (mkStream (sent signal) closed))
                 (fulfilled (concat (sent signal)))).
Proof.
  cbn [streamMessage chatApi]. unfold streamOf, sourceOf.
  rewrite (mock_source signal (enoughRuns reply)) by done.
  cbn [enqueued chunks]. rewrite decodeWhole_sevenBit; [done|].
  apply Forall_concat, sent_sevenBit.
Qed.

Lemma concat_sent signal :
  concat (sent signal) = take (5 * quietRuns signal 25 0) reply.
Proof.
  unfold sent. apply concat_take_pieces.
  rewrite reply_length. change ((121 + 4) / 5) with 25.
  apply quietRuns_le.
Qed.
End MockFacts.


(** C6: for every call of [streamMessage] and every behaviour of the abort
    signal, the stream is finite: its source clears the interval and closes
    the stream within a fixed number of runs, and further time adds
    nothing.  The chunks are pieces of the canned text of 1 to 5 code units,
    in order, and decode to themselves.  If no run reads the signal
    aborted the chunks make up the whole text; a run that reads it aborted
    enqueues nothing, and no chunk follows it. *)
Theorem streamMessage_finite_and_cancellable
    (id prompt : Js.jsstring) (atts : list Attachment)
    (signal : Backend.AbortSignal) (mode : option Mode) :
  exists chunks,
    Backend.streamMessage id prompt atts signal mode
    = Js.fulfilled
        (Backend.mkResponse (Some (Backend.mkStream chunks Backend.closed))
           (Js.fulfilled (concat chunks))) /\
    (forall fuel,
       Backend.enoughRuns Backend.reply <= fuel ->
       let s := Backend.runInterval Backend.reply signal fuel 0 Backend.start in
       Backend.interval s = false /\ Backend.isClosed s = true /\
       Backend.enqueued s = chunks) /\
    Forall (fun ch => 1 <= length ch <= 5) chunks /\
    chunks `prefix_of` pieces Backend.reply /\
    decodeChunks Js.newDecoder chunks = concat chunks /\
    ((forall n, n < 25 -> Backend.aborted signal n = false) ->
     concat chunks = Backend.reply) /\
    (forall n, Backend.aborted signal n = true -> length chunks <= n).
Proof.
  exists (sent signal). split; [apply mock_streamMessage|].
  split; [|split; [|split; [|split; [|split]]]].
  - intros fuel Hfuel. cbv zeta. by rewrite (mock_source signal fuel Hfuel).
  - apply Forall_take, pieces_bounded.
  - unfold sent. apply prefix_take.
  - apply decodeChunks_sevenBit; [reflexivity|apply sent_sevenBit].
  - intros Hq. rewrite concat_sent, (quietRuns_all signal 25 0) by done.
    apply take_ge. rewrite reply_length. lia.
  - intros n Hab. unfold sent. rewrite length_take.
    pose proof (quietRuns_until signal 25 0 n Hab). lia.
Qed.

Lemma streamMessage_finite_and_cancellable_witness :
  Backend.aborted abortedAtThird 3 = true /\
  exists chunks,
    Backend.streamMessage (Js.lit "mock-chat-id") (Js.lit "explain this move")
      [] abortedAtThird (Some trade_mode)
    = Js.fulfilled
        (Backend.mkResponse (Some (Backend.mkStream chunks Backend.closed))
           (Js.fulfilled (concat chunks))) /\
    length chunks <= 3.
Proof.
  split; [reflexivity|].
  destruct (streamMessage_finite_and_cancellable
              (Js.lit "mock-chat-id") (Js.lit "explain this move")
              [] abortedAtThird (Some trade_mode))
    as [chunks [Hresp [_ [_ [_ [_ [_ Hstop]]]]]]].
  exists chunks. split; [exact Hresp|].
  apply Hstop. reflexivity.
Defined.

(** C7: a cancelled reply stream ends for its reader either by closing
    early (what the mock does once it reads the signal aborted) or with an
    exception named [AbortError] (what a fetch does).  In both cases the
    submit that reads it ends normally: its promise is fulfilled, nothing
    is written to [console.error], the loading flag and the controller are
    reset, and the text decoded so far, when not empty, is appended to the
    transcript as an assistant message right after the user message. *)
Theorem cancelled_stream_keeps_partial_reply `{Backend.ChatApi}
    (signals : nat -> Backend.AbortSignal) (props : Chat.Props)
    (c : Chat.ChatState) (prompt : Js.jsstring) (w : Chat.World)
    (id : Js.jsstring) (pending : list (list N)) (fin : Backend.StreamEnd)
    (t : Js.Settled Js.jsstring) :
  Chat.isLoading c = false ->
  forallb Js.isWhiteSpace prompt = false \/ Chat.attachments c <> [] ->
  chatIdAvailable c prompt id ->
  Backend.streamMessage id prompt (Chat.attachments c)
    (signals (Chat.controllers w)) (Chat.mode props)
  = Js.fulfilled
      (Backend.mkResponse (Some (Backend.mkStream pending fin)) t) ->
  fin = Backend.closed
  \/ (exists e, fin = Backend.errored e /\ Js.name e = Js.lit "AbortError") ->
  decodeChunks Js.newDecoder pending <> [] ->
  let r := Chat.handleSubmit signals props c prompt w in
  Chat.settles (fst r) = Js.fulfilled tt /\
  Chat.messages (Chat.ui (snd r))
  = Chat.messages (Chat.ui w)
      ++ [mkMessage user prompt (Some (Chat.attachments c));
          mkMessage assistant (decodeChunks Js.newDecoder pending) None] /\
  Chat.isLoading (Chat.ui (snd r)) = false /\
  Chat.abortController (Chat.ui (snd r)) = None /\
  Chat.isAssistantTyping (Chat.ui (snd r)) = true /\
  (forall msg err,
     Chat.ConsoleError msg err ∈ Chat.effects (snd r) ->
     Chat.ConsoleError msg err ∈ Chat.effects w).
Proof.
  intros Hload Hsome Hid Hstream Hfin Hpartial r.
  assert (Chat.submitRefused c prompt = false) as Hg
    by (by apply submitRefused_false).
  destruct (handleSubmit_streamed signals props c prompt w id pending fin t
              Hg Hid Hstream)
    as (Hsettles & Hmsgs & _ & Hloading & Hctl & Htyping & _ & Herr).
  fold r in Hsettles, Hmsgs, Hloading, Hctl, Htyping, Herr.
  assert (Js.truthy (decodeChunks Js.newDecoder pending) = true) as Htruthy
    by (by destruct (decodeChunks Js.newDecoder pending)).
  assert (match fin with
          | Backend.closed => true
          | Backend.errored e =>
              bool_decide (Js.name e = Js.lit "AbortError")
              && Js.truthy (decodeChunks Js.newDecoder pending)
          end = true) as Hanswered.
  { destruct Hfin as [->|[e [-> Hname]]]; [done|].
    rewrite Htruthy, andb_true_r. by apply bool_decide_eq_true. }
  rewrite Hanswered in Hmsgs, Htyping.
  repeat split; try done.
  intros msg err Hin. destruct (Herr msg err Hin) as [|[Hfin' Hname]]; [done|].
  destruct Hfin as [->|[e [-> Hname']]]; [discriminate Hfin'|].
  injection Hfin' as ->. done.
Qed.


Lemma cancelled_stream_keeps_partial_reply_witness :
  Chat.messages
    (Chat.ui
       (snd (Chat.handleSubmit (fun _ => abortedAtThird) tradeProps
               (Chat.initialChat tradeProps) (Js.lit "explain this move")
               (Chat.initialWorld tradeProps))))
  = cutTranscript.
Proof.
  apply (cancelled_stream_keeps_partial_reply
           (fun _ => abortedAtThird) tradeProps
           (Chat.initialChat tradeProps) (Js.lit "explain this move")
           (Chat.initialWorld tradeProps) (Js.lit "mock-chat-id")
           [Js.lit "This "; Js.lit "is a "; Js.lit "mock "] Backend.closed
           (Js.fulfilled (Js.lit "This is a mock "))).
  - reflexivity.
  - left. reflexivity.
  - split; [reflexivity|]. right. split; reflexivity.
  - vm_compute. reflexivity.
  - left. reflexivity.
  - vm_compute. discriminate.
Defined.

(* ------------------------------------------------------------------------- *)
(** ** The attachments of a session *)
(* ------------------------------------------------------------------------- *)

Section SessionFacts.
Import Js Backend Chat.


Context {api : ChatApi}.
Variable signals : nat -> AbortSignal.
Variable props : Props.

Lemma handleSubmit_allAttachments prompt w a :
  a ∈ allAttachments (ui (snd (handleSubmit signals props (ui w) prompt w))) ->
  a ∈ allAttachments (ui w).
Proof.
  intros Hin.
  destruct (submitRefused (ui w) prompt) eqn:Hg.
  - by rewrite handleSubmit_refused in Hin.
  - destruct (handleSubmit_accepted signals props (ui w) prompt w Hg)
      as [Hempty [tail [Hmsgs Htail]]].
    unfold allAttachments in *. rewrite Hempty, Hmsgs in Hin.
    rewrite app_nil_l in Hin.
    apply list_elem_of_bind in Hin as [m [Ha Hm]].
    apply elem_of_app in Hm as [Hm|Hm].
    + apply elem_of_app. right. apply list_elem_of_bind. eauto.
    + apply elem_of_cons in Hm as [->|Hm].
      * apply elem_of_app. by left.
      * destruct Htail as [->|[txt ->]].
        -- by apply elem_of_nil in Hm.
        -- apply list_elem_of_singleton in Hm as ->.
           by apply elem_of_nil in Ha.
Qed.

Lemma history_carries_nothing (rows : list HistoryRow) a :
  ~ a ∈ ((fun m =>
            mkMessage
              (if bool_decide (row_role m = lit "assistant")
               then assistant else user)
              (default [] (row_content m)) None) <$> rows) ≫= carried.
Proof.
  intros [m [Ha Hm]]%list_elem_of_bind.
  apply list_elem_of_fmap in Hm as [row [-> _]].
  by apply elem_of_nil in Ha.
Qed.

(** Whatever the event, an attachment held after it was held before it,
    unchanged, or is the one the event brings in. *)
Lemma dispatch_allAttachments e w a :
  a ∈ allAttachments (ui (dispatch signals props e w)) ->
  a ∈ allAttachments (ui w) \/ entered e w a.
Proof.
  destruct e; cbn [dispatch entered].
  all: repeat match goal with
       | |- context [if ?b then _ else _] => destruct b eqn:?
       end; auto.
  all: try (cbn; by auto).
  - (* Mounted *)
    unfold loadHistory, handler. unfold_body.
    repeat body_step; auto.
    unfold allAttachments. cbn. intros Hin. left.
    apply elem_of_app in Hin as [Hin|Hin].
    + apply elem_of_app. by left.
    + by apply history_carries_nothing in Hin.
  - (* FormSubmit *)
    intros Hin. left. by apply (handleSubmit_allAttachments (prompt (tray w))).
  - (* FileChange *)
    destruct files as [[|fileName rest]|]; cbn; auto.
    unfold allAttachments. cbn. rewrite !elem_of_app, list_elem_of_singleton.
    intros [[Hin| ->]|Hin]; eauto.
  - (* StopClick *)
    unfold handleStopStreaming.
    by destruct (abortController (ui w)), (isAssistantTyping (ui w)); auto.
  - (* ThumbnailRemove *)
    unfold allAttachments. cbn. rewrite !elem_of_app.
    rewrite filterOutIndex_delete by lia.
    intros [Hin|Hin]; left; [left|by right].
    by apply list_elem_of_delete_inv in Hin.
  - (* ThumbnailClick *)
    destruct (attachments (ui w) !! index) as [a0|]; [|by auto].
    by destruct (type a0); auto.
  - (* ModalAdd *)
    unfold handleAdd, handler. cbn.
    destruct (truthy (trim (modalUrl w))); cbn; [|by auto].
    unfold allAttachments, onAdd, handler, call. unfold_body.
    rewrite !elem_of_app, list_elem_of_singleton.
    intros [[Hin| ->]|Hin]; eauto.
  - (* EditSend *)
    unfold handleEditSend, handler. cbn.
    destruct (truthy (trim (editDraft (ui w)))); cbn; [|by auto].
    intros Hin. left.
    by apply (handleSubmit_allAttachments (editDraft (ui w))).
Qed.


End SessionFacts.

(** C8: in every session, every attachment the chat holds, pending or in
    the transcript, has one of the three kinds image, url, file.  Every
    operation preserves the classification: an attachment held after an
    event is one that was held before it, kind and payload unchanged, or it
    is the one the event brings in, of kind file for a picked file and of
    kind url for the webpage modal (the capture brings none in). *)
Theorem attachment_kinds_are_closed `{Backend.ChatApi}
    (signals : nat -> Backend.AbortSignal) (props : Chat.Props)
    (events : list Chat.Event) (e : Chat.Event) :
  let w := Chat.session signals props events (Chat.initialWorld props) in
  (forall a,
     a ∈ allAttachments (Chat.ui w) ->
     type a = image \/ type a = url \/ type a = file) /\
  (forall a,
     a ∈ allAttachments (Chat.ui (Chat.dispatch signals props e w)) ->
     a ∈ allAttachments (Chat.ui w)
     \/ (entered e w a /\
         match e with
         | Chat.FileChange _ => type a = file
         | Chat.ModalAdd => type a = url
         | _ => False
         end)).
Proof.
  intros w. split.
  - intros a _. destruct a as [[] d]; auto.
  - intros a Hin.
    apply dispatch_allAttachments in Hin as [Hin|Hin]; [by left|right].
    split; [done|].
    destruct e; try done.
    + by destruct Hin as [fileName [_ ->]].
    + by rewrite Hin.
Qed.

(* ------------------------------------------------------------------------- *)
(** ** Further properties of the submit handler *)
(* ------------------------------------------------------------------------- *)

Section SubmitPaths.
Import Js Backend Chat.
Context {api : ChatApi}.
Variable signals : nat -> AbortSignal.
Variable props : Props.

Lemma accepted_not_refused c prompt :
  isLoading c = false ->
  forallb isWhiteSpace prompt = false \/ attachments c <> [] ->
  submitRefused c prompt = false.
Proof. intros. by apply submitRefused_false. Qed.

(** The effects of a submit whose stream is delivered and closes, the
    controller it creates and the chat it leaves. *)
Lemma handleSubmit_delivered c prompt w id pending t :
  submitRefused c prompt = false ->
  chatIdAvailable c prompt id ->
  streamMessage id prompt (attachments c) (signals (controllers w))
    (mode props)
  = fulfilled (mkResponse (Some (mkStream pending closed)) t) ->
  let r := handleSubmit signals props c prompt w in
  effects (snd r)
  = effects w
      ++ (if falsy (chatId c)
          then [CallCreateChat prompt; StartPollingChat id] else [])
      ++ match abortController c with
         | Some old => [Abort (controllerId old)]
         | None => []
         end
      ++ [CallStreamMessage id prompt (attachments c) (mode props)] /\
  chatId (ui (snd r)) = (if falsy (chatId c) then Some id else chatId (ui w)) /\
  controllers (snd r) = S (controllers w).
Proof.
  intros Hg [Hid Hsrc] Hstream. unfold handleSubmit, async. rewrite Hg.
  unfold_body.
  destruct Hsrc as [Hc|[Hc Hcreate]].
  - rewrite Hc. cbn. rewrite Hid. cbn.
    destruct (abortController c); cbn; rewrite Hstream; cbn;
      rewrite readLoop_eq; cbn; rewrite <- ?app_assoc; by repeat split.
  - rewrite Hc. cbn. rewrite Hcreate. cbn. rewrite Hid. cbn.
    destruct (abortController c); cbn; rewrite Hstream; cbn;
      rewrite readLoop_eq; cbn; rewrite <- ?app_assoc; by repeat split.
Qed.

(** Whatever the backend does, the cells a submit does not own are left
    alone, its promise is fulfilled, and the flags are reset at the end. *)
Lemma handleSubmit_frame c prompt w :
  let r := handleSubmit signals props c prompt w in
  settles (fst r) = fulfilled tt /\
  tray (snd r) = tray w /\
  modalUrl (snd r) = modalUrl w /\
  isWebpageModalOpen (ui (snd r)) = isWebpageModalOpen (ui w) /\
  previewImage (ui (snd r)) = previewImage (ui w) /\
  isEditingPrompt (ui (snd r)) = isEditingPrompt (ui w) /\
  editDraft (ui (snd r)) = editDraft (ui w) /\
  (submitRefused c prompt = false ->
   isLoading (ui (snd r)) = false /\ abortController (ui (snd r)) = None).
Proof.
  destruct (submitRefused c prompt) eqn:Hg.
  - cbv zeta. rewrite handleSubmit_refused by done. by repeat split.
  - unfold handleSubmit, async. rewrite Hg. unfold_body.
    repeat body_step.
    all: by repeat split.
Qed.

(** A submit on a chat that has an identifier keeps it and does not call
    [createChat]. *)
Lemma handleSubmit_keeps_chat c prompt w :
  falsy (chatId c) = false ->
  let r := handleSubmit signals props c prompt w in
  chatId (ui (snd r)) = chatId (ui w) /\
  (forall p, CallCreateChat p ∈ effects (snd r) ->
             CallCreateChat p ∈ effects w).
Proof.
  intros Hid.
  destruct (submitRefused c prompt) eqn:Hg.
  - cbv zeta. by rewrite handleSubmit_refused.
  - unfold handleSubmit, async. rewrite Hg. unfold_body. rewrite Hid. cbn.
    repeat body_step.
    all: split; [reflexivity|].
    all: intros p Hin; split_effects Hin; auto; discriminate Hin.
Qed.

(** The transcript after a submit starts with the transcript before it. *)
Lemma handleSubmit_extends c prompt w :
  messages (ui w)
  `prefix_of` messages (ui (snd (handleSubmit signals props c prompt w))).
Proof.
  destruct (submitRefused c prompt) eqn:Hg.
  - by rewrite handleSubmit_refused.
  - destruct (handleSubmit_accepted signals props c prompt w Hg)
      as [_ [tail [-> _]]].
    by apply prefix_app_r.
Qed.
End SubmitPaths.

Section SubmitFailures.
Import Js Backend Chat.
Context {api : ChatApi}.
Variable signals : nat -> AbortSignal.
Variable props : Props.

(** A submit that fails: the transcript, the console and the flags when the
    handler is done. *)
Lemma handleSubmit_failed c prompt w e partial :
  submitRefused c prompt = false ->
  SubmitFails signals props c prompt w e partial ->
  let r := handleSubmit signals props c prompt w in
  let kept := bool_decide (name e = lit "AbortError") && truthy partial in
  messages (ui (snd r))
  = messages (ui w) ++ [userMessage c prompt]
      ++ (if kept then [mkMessage assistant partial None] else []) /\
  (exists calls,
     effects (snd r) = effects w ++ calls ++ [failureLine e] /\
     forallb isCall calls = true) /\
  isAssistantTyping (ui (snd r))
  = (if kept then true else isAssistantTyping (ui w)).
Proof.
  intros Hg Hfail.
  destruct Hfail as [e Hc Hcreate | id e [Hid Hsrc] Hreq
                    | id pending e t [Hid Hsrc] Hreq
                    | id e [Hid Hsrc] Hreq].
  - refine (conj _ (conj (ex_intro _ [CallCreateChat prompt] _) _)).
    all: unfold handleSubmit, async, failureLine, userMessage.
    all: rewrite Hg; unfold_body; rewrite Hc; cbn; rewrite Hcreate; cbn.
    all: rewrite ?andb_false_r.
    all: destruct (bool_decide (name e = lit "AbortError")); cbn.
    all: rewrite <- ?app_assoc; try split; reflexivity.
  - refine (conj _ (conj (ex_intro _ (callsBefore props c prompt id) _) _)).
    all: unfold handleSubmit, async, failureLine, userMessage, callsBefore.
    all: rewrite Hg; unfold_body.
    all: destruct Hsrc as [Hc|[Hc Hcreate]]; rewrite Hc; cbn;
      rewrite ?Hcreate; cbn; rewrite Hid; cbn;
      destruct (abortController c); cbn; rewrite Hreq; cbn.
    all: rewrite ?andb_false_r.
    all: destruct (bool_decide (name e = lit "AbortError")); cbn.
    all: rewrite <- ?app_assoc; try split; reflexivity.
  - refine (conj _ (conj (ex_intro _ (callsBefore props c prompt id) _) _)).
    all: unfold handleSubmit, async, failureLine, userMessage, callsBefore.
    all: rewrite Hg; unfold_body.
    all: destruct Hsrc as [Hc|[Hc Hcreate]]; rewrite Hc; cbn;
      rewrite ?Hcreate; cbn; rewrite Hid; cbn;
      destruct (abortController c); cbn; rewrite Hreq; cbn;
      rewrite readLoop_eq; cbn.
    all: destruct (bool_decide (name e = lit "AbortError")); cbn.
    all: try destruct (truthy (decodeChunks newDecoder pending)); cbn.
    all: rewrite <- ?app_assoc; try split; reflexivity.
  - refine (conj _ (conj (ex_intro _ (callsBefore props c prompt id) _) _)).
    all: unfold handleSubmit, async, failureLine, userMessage, callsBefore.
    all: rewrite Hg; unfold_body.
    all: destruct Hsrc as [Hc|[Hc Hcreate]]; rewrite Hc; cbn;
      rewrite ?Hcreate; cbn; rewrite Hid; cbn;
      destruct (abortController c); cbn; rewrite Hreq; cbn.
    all: rewrite ?andb_false_r.
    all: destruct (bool_decide (name e = lit "AbortError")); cbn.
    all: rewrite <- ?app_assoc; try split; reflexivity.
Qed.
End SubmitFailures.

(** X1: whatever the backend does (answer, refuse, reject, break the
    stream), the promise of [handleSubmit] is fulfilled: every exception is
    caught.  The handler never touches the tray, the webpage modal, the
    preview or the edit form; and once a submit was accepted, it ends with
    the loading flag off, no controller held and no pending attachment. *)
Theorem submit_settles_and_resets `{Backend.ChatApi}
    (signals : nat -> Backend.AbortSignal) (props : Chat.Props)
    (c : Chat.ChatState) (prompt : Js.jsstring) (w : Chat.World) :
  let r := Chat.handleSubmit signals props c prompt w in
  Chat.settles (fst r) = Js.fulfilled tt /\
  Chat.tray (snd r) = Chat.tray w /\
  Chat.modalUrl (snd r) = Chat.modalUrl w /\
  Chat.isWebpageModalOpen (Chat.ui (snd r))
  = Chat.isWebpageModalOpen (Chat.ui w) /\
  Chat.previewImage (Chat.ui (snd r)) = Chat.previewImage (Chat.ui w) /\
  Chat.isEditingPrompt (Chat.ui (snd r)) = Chat.isEditingPrompt (Chat.ui w) /\
  Chat.editDraft (Chat.ui (snd r)) = Chat.editDraft (Chat.ui w) /\
  (Chat.submitRefused c prompt = false ->
   Chat.isLoading (Chat.ui (snd r)) = false /\
   Chat.abortController (Chat.ui (snd r)) = None /\
   Chat.attachments (Chat.ui (snd r)) = []).
Proof.
  intros r.
  destruct (handleSubmit_frame signals props c prompt w)
    as (H1 & H2 & H3 & H4 & H5 & H6 & H7 & H8).
  repeat (split; [assumption|]).
  intros Hg. destruct (H8 Hg) as [Hl Hc].
  repeat (split; [assumption|]).
  by destruct (handleSubmit_accepted signals props c prompt w Hg) as [He _].
Qed.

(** X2: when a chat has to be created and [createChat] answers with an
    error, or without a chat identifier, the submit stops there: the user
    message stays in the transcript, the pending attachments are gone, no
    stream is requested (the only backend call is [createChat]), no
    controller is created, nothing is written to the console, no reply is
    appended and the loading flag is off again. *)
Theorem refused_chat_creation_stops_the_submit `{Backend.ChatApi}
    (signals : nat -> Backend.AbortSignal) (props : Chat.Props)
    (c : Chat.ChatState) (prompt : Js.jsstring) (w : Chat.World)
    (res : Backend.Result Backend.ChatCreated) :
  Chat.isLoading c = false ->
  forallb Js.isWhiteSpace prompt = false \/ Chat.attachments c <> [] ->
  Chat.chatId c = None \/ Chat.chatId c = Some [] ->
  Backend.createChat prompt = Js.fulfilled res ->
  Backend.res_error res <> None
  \/ Backend.res_data res = None
  \/ Backend.res_data res = Some (Backend.mkChatCreated []) ->
  let r := Chat.handleSubmit signals props c prompt w in
  Chat.messages (Chat.ui (snd r))
  = Chat.messages (Chat.ui w) ++ [userMessage c prompt] /\
  Chat.attachments (Chat.ui (snd r)) = [] /\
  Chat.isLoading (Chat.ui (snd r)) = false /\
  Chat.chatId (Chat.ui (snd r)) = Chat.chatId (Chat.ui w) /\
  Chat.effects (snd r) = Chat.effects w ++ [Chat.CallCreateChat prompt] /\
  Chat.controllers (snd r) = Chat.controllers w.
Proof.
  intros Hload Hsome Hid Hcreate Hres r. subst r.
  assert (Chat.submitRefused c prompt = false) as Hg
    by (by apply submitRefused_false).
  assert (Chat.falsy (Chat.chatId c) = true) as Hfalsy
    by (by destruct Hid as [->| ->]).
  assert (Chat.notNull (Backend.res_error res)
          || Chat.falsy (Backend.created_chatId <$> Backend.res_data res)
          = true) as Hbad.
  { destruct Hres as [He|[Hd|Hd]].
    - by destruct (Backend.res_error res).
    - rewrite Hd. apply orb_true_r.
    - rewrite Hd. apply orb_true_r. }
  unfold Chat.handleSubmit, Chat.async, userMessage. rewrite Hg. unfold_body.
  rewrite Hfalsy. cbn. rewrite Hcreate. cbn. rewrite Hbad. cbn.
  by repeat split.
Qed.

Lemma refused_chat_creation_stops_the_submit_witness :
  Chat.messages
    (Chat.ui
       (snd (@Chat.handleSubmit refusingApi (fun _ => neverAborted) tradeProps
               (Chat.initialChat tradeProps) (Js.lit "explain this move")
               (Chat.initialWorld tradeProps))))
  = [mkMessage user (Js.lit "explain this move") (Some [])].
Proof.
  apply (@refused_chat_creation_stops_the_submit refusingApi
           (fun _ => neverAborted) tradeProps (Chat.initialChat tradeProps)
           (Js.lit "explain this move") (Chat.initialWorld tradeProps)
           (Backend.mkResult None
              (Some (Js.mkError (Js.lit "Error") [])))).
  - reflexivity.
  - left. reflexivity.
  - left. reflexivity.
  - reflexivity.
  - left. discriminate.
Defined.

(** X3: a submit that fails for another reason than an abort (the chat
    creation, the request of the stream, reading the stream or reading the
    text of the response throws an error not named AbortError) is logged by
    one [console.error] carrying that error, the last effect of the
    handler.  The text received until then is dropped: the transcript
    gains the user message only, and no typing starts. *)
Theorem failed_submit_drops_partial_reply `{Backend.ChatApi}
    (signals : nat -> Backend.AbortSignal) (props : Chat.Props)
    (c : Chat.ChatState) (prompt : Js.jsstring) (w : Chat.World)
    (e : Js.Error) (partial : Js.jsstring) :
  Chat.isLoading c = false ->
  forallb Js.isWhiteSpace prompt = false \/ Chat.attachments c <> [] ->
  SubmitFails signals props c prompt w e partial ->
  Js.name e <> Js.lit "AbortError" ->
  let r := Chat.handleSubmit signals props c prompt w in
  Chat.messages (Chat.ui (snd r))
  = Chat.messages (Chat.ui w) ++ [userMessage c prompt] /\
  (exists calls,
     Chat.effects (snd r)
     = Chat.effects w ++ calls
         ++ [Chat.ConsoleError (Js.lit "chat error") e] /\
     forallb isCall calls = true) /\
  Chat.isAssistantTyping (Chat.ui (snd r)) = Chat.isAssistantTyping (Chat.ui w).
Proof.
  intros Hload Hsome Hfail Hname r.
  assert (Chat.submitRefused c prompt = false) as Hg
    by (by apply submitRefused_false).
  destruct (handleSubmit_failed signals props c prompt w e partial Hg Hfail)
    as (Hmsgs & Heff & Htyping).
  fold r in Hmsgs, Heff, Htyping. unfold failureLine in Heff.
  rewrite (bool_decide_eq_false_2 _ Hname) in Hmsgs, Heff, Htyping.
  cbn in Hmsgs, Htyping. rewrite ?app_nil_r in Hmsgs.
  split; [exact Hmsgs|]. split; [exact Heff|exact Htyping].
Qed.

Lemma failed_submit_drops_partial_reply_witness :
  Chat.messages
    (Chat.ui
       (snd (@Chat.handleSubmit (breakingApi networkError)
               (fun _ => neverAborted) tradeProps existingChat
               (Js.lit "explain this move") existingWorld)))
  = [mkMessage user (Js.lit "explain this move") (Some [])].
Proof.
  apply (@failed_submit_drops_partial_reply (breakingApi networkError)
           (fun _ => neverAborted) tradeProps existingChat
           (Js.lit "explain this move") existingWorld networkError
           (decodeChunks Js.newDecoder [Js.lit "This "])).
  - reflexivity.
  - left. reflexivity.
  - apply (@streamBreaks (breakingApi networkError) _ _ _ _ _
             (Js.lit "c1") [Js.lit "This "] networkError (Js.fulfilled [])).
    + split; [reflexivity|]. left. reflexivity.
    + reflexivity.
  - vm_compute. discriminate.
Defined.

(** X4: a submit that is aborted before any text was received (the
    exception is named AbortError and nothing was decoded) appends no
    assistant message: the transcript gains the user message only.  The
    abort is reported by one [console.warn], the last effect of the
    handler, and not by [console.error]. *)
Theorem aborted_submit_without_text_adds_no_reply `{Backend.ChatApi}
    (signals : nat -> Backend.AbortSignal) (props : Chat.Props)
    (c : Chat.ChatState) (prompt : Js.jsstring) (w : Chat.World)
    (e : Js.Error) :
  Chat.isLoading c = false ->
  forallb Js.isWhiteSpace prompt = false \/ Chat.attachments c <> [] ->
  SubmitFails signals props c prompt w e [] ->
  Js.name e = Js.lit "AbortError" ->
  let r := Chat.handleSubmit signals props c prompt w in
  Chat.messages (Chat.ui (snd r))
  = Chat.messages (Chat.ui w) ++ [userMessage c prompt] /\
  (exists calls,
     Chat.effects (snd r)
     = Chat.effects w ++ calls
         ++ [Chat.ConsoleWarn (Js.lit "chat stream aborted by user")] /\
     forallb isCall calls = true) /\
  Chat.isAssistantTyping (Chat.ui (snd r)) = Chat.isAssistantTyping (Chat.ui w).
Proof.
  intros Hload Hsome Hfail Hname r.
  assert (Chat.submitRefused c prompt = false) as Hg
    by (by apply submitRefused_false).
  destruct (handleSubmit_failed signals props c prompt w e [] Hg Hfail)
    as (Hmsgs & Heff & Htyping).
  fold r in Hmsgs, Heff, Htyping. unfold failureLine in Heff.
  rewrite (bool_decide_eq_true_2 _ Hname) in Hmsgs, Heff, Htyping.
  cbn in Hmsgs, Htyping. rewrite ?app_nil_r in Hmsgs.
  split; [exact Hmsgs|]. split; [exact Heff|exact Htyping].
Qed.

Lemma aborted_submit_without_text_adds_no_reply_witness :
  Chat.messages
    (Chat.ui
       (snd (@Chat.handleSubmit (rejectingApi abortError)
               (fun _ => neverAborted) tradeProps existingChat
               (Js.lit "explain this move") existingWorld)))
  = [mkMessage user (Js.lit "explain this move") (Some [])].
Proof.
  apply (@aborted_submit_without_text_adds_no_reply (rejectingApi abortError)
           (fun _ => neverAborted) tradeProps existingChat
           (Js.lit "explain this move") existingWorld abortError).
  - reflexivity.
  - left. reflexivity.
  - apply (@requestRejects (rejectingApi abortError) _ _ _ _ _
             (Js.lit "c1") abortError).
    + split; [reflexivity|]. left. reflexivity.
    + reflexivity.
  - reflexivity.
Defined.

Section MockSubmit.
Import Js Backend Chat.

(** With the mock, a chat identifier is always at hand: the one of the
    render, or [mock-chat-id]. *)
Lemma mock_chatIdAvailable c prompt :
  chatIdAvailable c prompt
    (if falsy (chatId c) then lit "mock-chat-id" else default [] (chatId c)).
Proof.
  unfold chatIdAvailable.
  destruct (chatId c) as [[|ch s]|] eqn:Hc; cbn.
  - split; [reflexivity|]. right. by split.
  - split; [reflexivity|]. by left.
  - split; [reflexivity|]. right. by split.
Qed.
End MockSubmit.

(** X5: against the mock backend every accepted submit ends with the user
    message followed by one assistant message in the transcript, whose
    content is the part of the canned reply streamed before the first
    aborted run: the whole reply when the user never stops, and the empty
    string when the stop comes before the first chunk (an empty assistant
    bubble).  Typing is switched on for it, and a chat without identifier
    becomes the chat [mock-chat-id]. *)
Theorem mock_submit_end_to_end
    (signals : nat -> Backend.AbortSignal) (props : Chat.Props)
    (c : Chat.ChatState) (prompt : Js.jsstring) (w : Chat.World) :
  Chat.isLoading c = false ->
  forallb Js.isWhiteSpace prompt = false \/ Chat.attachments c <> [] ->
  let r := Chat.handleSubmit signals props c prompt w in
  let signal := signals (Chat.controllers w) in
  let streamed := take (5 * quietRuns signal 25 0) Backend.reply in
  Chat.messages (Chat.ui (snd r))
  = Chat.messages (Chat.ui w)
      ++ [userMessage c prompt; mkMessage assistant streamed None] /\
  ((forall n, n < 25 -> Backend.aborted signal n = false) ->
   streamed = Backend.reply) /\
  (Backend.aborted signal 0 = true -> streamed = []) /\
  Chat.isAssistantTyping (Chat.ui (snd r)) = true /\
  Chat.forceCompleteTyping (Chat.ui (snd r)) = false /\
  Chat.isLoading (Chat.ui (snd r)) = false /\
  Chat.chatId (Chat.ui (snd r))
  = (if Chat.falsy (Chat.chatId c) then Some (Js.lit "mock-chat-id")
     else Chat.chatId (Chat.ui w)).
Proof.
  intros Hload Hsome r signal streamed.
  assert (Chat.submitRefused c prompt = false) as Hg
    by (by apply submitRefused_false).
  pose proof (mock_chatIdAvailable c prompt) as Hid.
  set (id := if Chat.falsy (Chat.chatId c) then Js.lit "mock-chat-id"
             else default [] (Chat.chatId c)) in Hid.
  pose proof (mock_streamMessage id prompt (Chat.attachments c) signal
                (Chat.mode props)) as Hstream.
  destruct (handleSubmit_streamed signals props c prompt w id _ _ _
              Hg Hid Hstream)
    as (_ & Hmsgs & _ & Hloading & _ & Htyping & Hforce & _).
  destruct (handleSubmit_delivered signals props c prompt w id _ _
              Hg Hid Hstream) as (_ & Hchat & _).
  fold r in Hmsgs, Hloading, Htyping, Hforce, Hchat.
  rewrite (decodeChunks_sevenBit Js.newDecoder (sent signal) eq_refl
             (sent_sevenBit signal)), concat_sent in Hmsgs.
  repeat split; try assumption.
  - intros Hq. subst streamed. rewrite (quietRuns_all signal 25 0) by done.
    apply take_ge. rewrite reply_length. lia.
  - intros Hab. subst streamed. by rewrite (quietRuns_aborted signal 0 25 Hab).
  - rewrite Hchat. subst id. by destruct (Chat.falsy (Chat.chatId c)).
Qed.

Lemma mock_submit_end_to_end_witness :
  Chat.messages
    (Chat.ui
       (snd (Chat.handleSubmit (fun _ => neverAborted) tradeProps
               (Chat.initialChat tradeProps) (Js.lit "explain this move")
               (Chat.initialWorld tradeProps))))
  = [mkMessage user (Js.lit "explain this move") (Some []);
     mkMessage assistant Backend.reply None].
Proof.
  apply (mock_submit_end_to_end (fun _ => neverAborted) tradeProps
           (Chat.initialChat tradeProps) (Js.lit "explain this move")
           (Chat.initialWorld tradeProps) eq_refl (or_introl eq_refl)).
Defined.

(** X6: a submit whose stream is delivered calls the backend in a fixed
    order and writes nothing to the console: [createChat] with the prompt
    and then [startPollingChat] with the new identifier, both only when the
    chat of the render has no identifier; then the abort of the controller
    the render still holds, if any; then one [streamMessage] with the chat
    identifier, the prompt, the attachments of the render and the mode.
    Exactly one controller is created, and the chat keeps its identifier or
    gets the created one. *)
Theorem submit_calls_backend_in_order `{Backend.ChatApi}
    (signals : nat -> Backend.AbortSignal) (props : Chat.Props)
    (c : Chat.ChatState) (prompt : Js.jsstring) (w : Chat.World)
    (id : Js.jsstring) (pending : list (list N))
    (t : Js.Settled Js.jsstring) :
  Chat.isLoading c = false ->
  forallb Js.isWhiteSpace prompt = false \/ Chat.attachments c <> [] ->
  chatIdAvailable c prompt id ->
  Backend.streamMessage id prompt (Chat.attachments c)
    (signals (Chat.controllers w)) (Chat.mode props)
  = Js.fulfilled
      (Backend.mkResponse (Some (Backend.mkStream pending Backend.closed)) t) ->
  let r := Chat.handleSubmit signals props c prompt w in
  Chat.effects (snd r)
  = Chat.effects w
      ++ (if Chat.falsy (Chat.chatId c)
          then [Chat.CallCreateChat prompt; Chat.StartPollingChat id]
          else [])
      ++ match Chat.abortController c with
         | Some old => [Chat.Abort (Chat.controllerId old)]
         | None => []
         end
      ++ [Chat.CallStreamMessage id prompt (Chat.attachments c)
            (Chat.mode props)] /\
  Chat.controllers (snd r) = S (Chat.controllers w) /\
  Chat.chatId (Chat.ui (snd r))
  = (if Chat.falsy (Chat.chatId c) then Some id
     else Chat.chatId (Chat.ui w)).
Proof.
  intros Hload Hsome Hid Hstream r.
  assert (Chat.submitRefused c prompt = false) as Hg
    by (by apply submitRefused_false).
  destruct (handleSubmit_delivered signals props c prompt w id pending t
              Hg Hid Hstream) as (Heff & Hchat & Hctl).
  by repeat split.
Qed.

Lemma submit_calls_backend_in_order_witness :
  Chat.effects
    (snd (Chat.handleSubmit (fun _ => neverAborted) tradeProps staleChat
            (Js.lit "explain this move") existingWorld))
  = [Chat.Abort 7;
     Chat.CallStreamMessage (Js.lit "c1") (Js.lit "explain this move") []
       (Some trade_mode)].
Proof.
  apply (submit_calls_backend_in_order (fun _ => neverAborted) tradeProps
           staleChat (Js.lit "explain this move") existingWorld
           (Js.lit "c1") (sent neverAborted)
           (Js.fulfilled (concat (sent neverAborted)))).
  - reflexivity.
  - left. reflexivity.
  - split; [reflexivity|]. left. reflexivity.
  - apply mock_streamMessage.
Defined.

(* ------------------------------------------------------------------------- *)
(** ** The typing animation *)
(* ------------------------------------------------------------------------- *)

Section TypingFacts.
Import Js Bubble.
Variable content : jsstring.
Variable hasOnTypingDone : bool.

(** The bubble after [k] runs of the callback, none of which reached the
    end of the content. *)
Let typing (calls k : nat) : State :=
  mkState (take (3 * k) content) true (3 * k) calls.

(** The bubble once the animation is over. *)
Let typed (calls k : nat) : State :=
  mkState content false (3 * k)
          (if hasOnTypingDone then S calls else calls).

Lemma tick_typing calls k :
  tick content hasOnTypingDone (typing calls k)
  = if length content <=? 3 * S k
    then typed calls (S k) else typing calls (S k).
Proof.
  unfold tick, typing, typed, CHARS_PER_TICK, callOnTypingDone, cleanup, slice.
  cbn [displayedContent typingIntervalRef i typingDoneCalls].
  replace (3 * k + 3 - 3 * k) with 3 by lia.
  rewrite take_take_drop.
  replace (3 * k + 3) with (3 * S k) by lia.
  destruct (Nat.leb_spec (length content) (3 * S k)) as [Hle|Hlt]; [|done].
  rewrite (take_ge content (3 * S k)) by done.
  by destruct hasOnTypingDone.
Qed.

Lemma animate_typing calls ticks k :
  (k = 0 \/ 3 * k < length content) ->
  animate content hasOnTypingDone ticks (typing calls k)
  = if (ticks =? 0) || (3 * (k + ticks) <? length content)
    then typing calls (k + ticks)
    else typed calls
           (if length content =? 0 then 1 else (length content + 2) / 3).
Proof.
  revert k. induction ticks as [|ticks IH]; intros k Hk.
  - cbn. by rewrite Nat.add_0_r.
  - cbn [animate typing typingIntervalRef]. fold (typing calls k).
    rewrite tick_typing.
    pose proof (Nat.div_mod_eq (length content + 2) 3) as Hdiv.
    pose proof (Nat.mod_upper_bound (length content + 2) 3) as Hmod.
    destruct (Nat.leb_spec (length content) (3 * S k)) as [Hle|Hlt].
    + assert (animate content hasOnTypingDone ticks (typed calls (S k))
              = typed calls (S k)) as -> by (by destruct ticks).
      cbn [Nat.eqb orb].
      destruct (Nat.ltb_spec (3 * (k + S ticks)) (length content)); [lia|].
      f_equal.
      destruct (Nat.eqb_spec (length content) 0); [lia|].
      destruct Hk as [->|Hk]; lia.
    + rewrite IH by lia.
      replace (S k + ticks) with (k + S ticks) by lia.
      cbn [Nat.eqb orb].
      destruct ticks as [|ticks']; cbn [Nat.eqb orb]; [|done].
      by destruct (Nat.ltb_spec (3 * (k + 1)) (length content)); [|lia].
Qed.
End TypingFacts.

(** X7: the typing animation of an assistant bubble (typing enabled, no
    chart in the content) reveals the content three code units per run of
    its interval: after [ticks] runs the bubble shows the first
    [3 * ticks] code units, a prefix of the content.  The interval stays
    set until a run reaches the end of the content (the first run, for an
    empty content); that run clears it and calls [onTypingDone], once; no
    later run changes anything.  The row of action buttons is rendered
    exactly when the whole content is shown. *)
Theorem typing_animation_reveals_content
    (content : Js.jsstring) (hasOnTypingDone : bool) (st0 : Bubble.State)
    (ticks : nat) :
  Bubble.hasChart content = false ->
  let start :=
    Bubble.typingEffect content false true hasOnTypingDone st0 in
  let st := Bubble.animate content hasOnTypingDone ticks start in
  let running := (ticks =? 0) || (3 * ticks <? length content) in
  Bubble.displayedContent st = take (3 * ticks) content /\
  Bubble.typingIntervalRef st = running /\
  Bubble.typingDoneCalls st
  = Bubble.typingDoneCalls st0
    + (if running then 0 else if hasOnTypingDone then 1 else 0) /\
  Bubble.actionsShown content st = (length content <=? 3 * ticks).
Proof.
  intros Hchart start st running.
  assert (start = Bubble.mkState (take (3 * 0) content) true (3 * 0)
                    (Bubble.typingDoneCalls st0)) as Hstart.
  { subst start. unfold Bubble.typingEffect. by rewrite Hchart. }
  subst st. rewrite Hstart.
  rewrite (animate_typing content hasOnTypingDone
             (Bubble.typingDoneCalls st0) ticks 0 (or_introl eq_refl)).
  rewrite Nat.add_0_l. fold running.
  assert (Bubble.actionsShown content
            (Bubble.mkState (take (3 * ticks) content) running 0 0)
          = (length content <=? 3 * ticks)) as Hshown.
  { unfold Bubble.actionsShown. cbn [Bubble.displayedContent].
    rewrite length_take.
    destruct (Nat.leb_spec (length content) (3 * ticks));
      [apply Nat.eqb_eq|apply Nat.eqb_neq]; lia. }
  destruct running eqn:Hrun;
    cbn [Bubble.displayedContent Bubble.typingIntervalRef
         Bubble.typingDoneCalls].
  - repeat split; [lia|exact Hshown].
  - apply orb_false_iff in Hrun as [_ Hrun%Nat.ltb_ge].
    rewrite (take_ge content (3 * ticks)) by done.
    repeat split.
    + by destruct hasOnTypingDone; lia.
    + unfold Bubble.actionsShown. cbn [Bubble.displayedContent].
      rewrite Nat.eqb_refl. symmetry. by apply Nat.leb_le.
Qed.

Lemma typing_animation_reveals_content_witness :
  Bubble.displayedContent
    (Bubble.animate (Js.lit "Markets rallied.") true 2
       (Bubble.typingEffect (Js.lit "Markets rallied.") false true true
          Bubble.mounted))
  = Js.lit "Market".
Proof.
  apply (typing_animation_reveals_content (Js.lit "Markets rallied.") true
           Bubble.mounted 2).
  vm_compute. reflexivity.
Defined.

(* ------------------------------------------------------------------------- *)
(** ** The other handlers *)
(* ------------------------------------------------------------------------- *)

Section TrimFacts.
Import Js.

Lemma trimStart_snoc (s : jsstring) ch :
  isWhiteSpace ch = false -> trimStart (s ++ [ch]) = trimStart s ++ [ch].
Proof.
  intros Hch. induction s as [|x s IH]; cbn.
  - by rewrite Hch.
  - by destruct (isWhiteSpace x).
Qed.

Lemma last_rev_head {A} (l : list A) : last (rev l) = head l.
Proof.
  destruct l as [|x l]; [done|]. cbn. apply last_snoc.
Qed.

Lemma head_rev_last {A} (l : list A) : head (rev l) = last l.
Proof. by rewrite <- last_rev_head, rev_involutive. Qed.

(** [trim] leaves no white space at either end. *)
Lemma trimmed_trim (s : jsstring) : trimmed (trim s).
Proof.
  unfold trim, trimEnd, trimmed.
  pose proof (trimStart_head s) as Hhead.
  destruct (trimStart s) as [|x t] eqn:Ht.
  - cbn. split; intros ch H; discriminate H.
  - split; intros ch Hch.
    + cbn [rev] in Hch. rewrite (trimStart_snoc _ _ Hhead) in Hch.
      rewrite rev_app_distr in Hch. cbn in Hch. by injection Hch as <-.
    + rewrite last_rev_head in Hch.
      pose proof (trimStart_head (rev (x :: t))) as H.
      destruct (trimStart (rev (x :: t))) as [|y r]; [discriminate Hch|].
      cbn in Hch. by injection Hch as <-.
Qed.
End TrimFacts.

(** X8: the Add button of the webpage modal.  With a URL field that is
    empty or holds white space only, it does nothing at all: nothing is
    attached and the modal stays open.  Otherwise it appends exactly one
    attachment of kind url to the pending list, whose payload is the field
    without the white space around it (not empty, no white space at
    either end), closes the modal and leaves the transcript alone. *)
Theorem webpage_add_attaches_trimmed_url (u : Js.jsstring) (w : Chat.World) :
  let w' := Chat.handleAdd Chat.onAdd u w in
  (forallb Js.isWhiteSpace u = true -> w' = w) /\
  (forallb Js.isWhiteSpace u = false ->
   Chat.attachments (Chat.ui w')
   = Chat.attachments (Chat.ui w) ++ [mkAttachment url (Js.trim u)] /\
   Js.trim u <> [] /\ trimmed (Js.trim u) /\
   Chat.isWebpageModalOpen (Chat.ui w') = false /\
   Chat.messages (Chat.ui w') = Chat.messages (Chat.ui w)).
Proof.
  intros w'. subst w'. unfold Chat.handleAdd, Chat.handler.
  pose proof (trim_falsy u) as Htrim.
  split; intros Hu.
  - destruct Htrim as [_ Htrim]. rewrite (Htrim Hu). cbn. by destruct w.
  - destruct (Js.truthy (Js.trim u)) eqn:Ht.
    + unfold Chat.onAdd, Chat.handler, Chat.call. unfold_body.
      split; [reflexivity|].
      split; [intros E; by rewrite E in Ht|].
      split; [apply trimmed_trim|]. by split.
    + destruct Htrim as [Htrim _]. rewrite (Htrim eq_refl) in Hu.
      discriminate Hu.
Qed.

Lemma webpage_add_attaches_trimmed_url_witness :
  forallb Js.isWhiteSpace (Js.lit "  https://example.com/btc ") = false /\
  Chat.attachments
    (Chat.ui
       (Chat.handleAdd Chat.onAdd (Js.lit "  https://example.com/btc ")
          (Chat.initialWorld tradeProps)))
  = [mkAttachment url (Js.lit "https://example.com/btc")].
Proof.
  split; [reflexivity|].
  apply (proj2 (webpage_add_attaches_trimmed_url
                  (Js.lit "  https://example.com/btc ")
                  (Chat.initialWorld tradeProps)) eq_refl).
Defined.

(** X9: picking files attaches the first file only, by its name, as an
    attachment of kind file at the end of the pending list, however many
    files were picked; a change event without files (no list, or an empty
    one) changes nothing. *)
Theorem file_pick_attaches_first_file_only
    (files : option (list Js.jsstring)) (w : Chat.World) :
  let w' := Chat.handleFileChange Chat.handleSetAttachment files w in
  match files with
  | Some (fileName :: others) =>
      Chat.attachments (Chat.ui w')
      = Chat.attachments (Chat.ui w) ++ [mkAttachment file fileName] /\
      Chat.messages (Chat.ui w') = Chat.messages (Chat.ui w) /\
      w' = Chat.handleFileChange Chat.handleSetAttachment
             (Some [fileName]) w
  | _ => w' = w
  end.
Proof.
  destruct files as [[|fileName others]|]; cbn; by destruct w.
Qed.

(** X10: removing at an index past the end of the pending list leaves the
    list as it is; removing at the last index right after an attachment
    was added gives back the list from before the addition; and
    [removeAttachment] empties the list whatever it held. *)
Theorem remove_edge_cases (w : Chat.World) (index : nat) (a : Attachment) :
  (length (Chat.attachments (Chat.ui w)) <= index ->
   Chat.attachments (Chat.ui (Chat.removeAtIndex index w))
   = Chat.attachments (Chat.ui w)) /\
  Chat.attachments
    (Chat.ui
       (Chat.removeAtIndex (length (Chat.attachments (Chat.ui w)))
          (Chat.handleSetAttachment (Some a) w)))
  = Chat.attachments (Chat.ui w) /\
  Chat.attachments (Chat.ui (Chat.removeAttachment w)) = [].
Proof.
  split; [|split; [|done]].
  - intros Hge. cbn. rewrite filterOutIndex_delete by lia.
    rewrite Nat.sub_0_r. clear a. revert index Hge.
    induction (Chat.attachments (Chat.ui w)) as [|x l IH];
      intros index Hge; [done|].
    destruct index as [|index]; cbn in *; [lia|].
    f_equal. apply IH. lia.
  - cbn. rewrite filterOutIndex_delete by lia. rewrite Nat.sub_0_r.
    induction (Chat.attachments (Chat.ui w)) as [|x l IH]; [done|].
    cbn. by f_equal.
Qed.

Lemma remove_edge_cases_witness :
  length (Chat.attachments (Chat.ui (Chat.initialWorld tradeProps))) <= 3 /\
  Chat.attachments
    (Chat.ui (Chat.removeAtIndex 3 (Chat.initialWorld tradeProps)))
  = [].
Proof.
  split; [cbn; lia|].
  apply (proj1 (remove_edge_cases (Chat.initialWorld tradeProps) 3
                  (mkAttachment file []))).
  cbn. lia.
Defined.

(* ------------------------------------------------------------------------- *)
(** ** What holds throughout a session *)
(* ------------------------------------------------------------------------- *)

Section SessionInvariants.
Import Js Backend Chat.
Context {api : ChatApi}.
Variable signals : nat -> AbortSignal.
Variable props : Props.

Lemma handleEditSend_eq c w :
  ui (handleEditSend signals props c w)
  = ui (closeEdit
          (if truthy (trim (editDraft c))
           then snd (handleSubmit signals props c (editDraft c) w)
           else w)) /\
  tray (handleEditSend signals props c w)
  = tray (if truthy (trim (editDraft c))
          then snd (handleSubmit signals props c (editDraft c) w) else w) /\
  effects (handleEditSend signals props c w)
  = effects (if truthy (trim (editDraft c))
             then snd (handleSubmit signals props c (editDraft c) w) else w).
Proof.
  unfold handleEditSend, handler, call, floating, closeEdit.
  destruct (truthy (trim (editDraft c))); unfold_body; by repeat split.
Qed.

Lemma handleFormSubmit_eq w :
  ui (handleFormSubmit
        (fun p => floating (handleSubmit signals props (ui w) p)) (tray w) w)
  = ui (snd (handleSubmit signals props (ui w) (prompt (tray w)) w)) /\
  isCapturing
    (tray (handleFormSubmit
             (fun p => floating (handleSubmit signals props (ui w) p))
             (tray w) w))
  = isCapturing
      (tray (snd (handleSubmit signals props (ui w) (prompt (tray w)) w))) /\
  effects (handleFormSubmit
             (fun p => floating (handleSubmit signals props (ui w) p))
             (tray w) w)
  = effects (snd (handleSubmit signals props (ui w) (prompt (tray w)) w)).
Proof.
  unfold handleFormSubmit, handler, call, floating. unfold_body.
  by repeat split.
Qed.

(** A submit switches typing on with force-complete off, or leaves both
    flags as they are. *)
Lemma handleSubmit_typing_flags c prompt w :
  let r := handleSubmit signals props c prompt w in
  (isAssistantTyping (ui (snd r)) = true /\
   forceCompleteTyping (ui (snd r)) = false) \/
  (isAssistantTyping (ui (snd r)) = isAssistantTyping (ui w) /\
   forceCompleteTyping (ui (snd r)) = forceCompleteTyping (ui w)).
Proof.
  destruct (submitRefused c prompt) eqn:Hg.
  - cbv zeta. rewrite handleSubmit_refused by done. by right.
  - unfold handleSubmit, async. rewrite Hg. unfold_body.
    repeat body_step.
    all: first [by left | by right].
Qed.

(** Events are dispatched one by one; a property of the world that every
    event keeps holds after a session. *)
Lemma session_invariant (P : World -> Prop) :
  (forall e w, P w -> P (dispatch signals props e w)) ->
  forall events w, P w -> P (session signals props events w).
Proof.
  intros Hstep events. induction events as [|e events IH]; intros w Hw.
  - exact Hw.
  - cbn [session foldl]. apply IH. by apply Hstep.
Qed.

Ltac by_event e :=
  destruct e; cbn [dispatch];
  repeat match goal with
    | |- context [if ?b then _ else _] => destruct b eqn:?
    end.

Lemma dispatch_keeps_idle_trigger e w :
  isCapturing (tray w) = false ->
  isCapturing (tray (dispatch signals props e w)) = false.
Proof.
  intros Hw. by_event e; auto.
  all: try (cbn; by auto).
  - unfold loadHistory, handler. unfold_body. repeat body_step; auto.
  - destruct (handleFormSubmit_eq w) as (_ & -> & _).
    by destruct (handleSubmit_frame signals props (ui w) (prompt (tray w)) w)
      as (_ & -> & _).
  - by destruct files as [[|x l]|].
  - unfold handleStopStreaming.
    by destruct (abortController (ui w)), (isAssistantTyping (ui w)).
  - destruct (attachments (ui w) !! index) as [a0|]; [|done].
    by destruct (type a0).
  - unfold handleAdd, handler. by destruct (truthy (trim (modalUrl w))).
  - destruct (handleEditSend_eq (ui w) w) as (_ & -> & _).
    destruct (truthy (trim (editDraft (ui w)))); [|done].
    by destruct (handleSubmit_frame signals props (ui w) (editDraft (ui w)) w)
      as (_ & -> & _).
Qed.

Lemma dispatch_keeps_typing_flags_apart e w :
  isAssistantTyping (ui w) && forceCompleteTyping (ui w) = false ->
  isAssistantTyping (ui (dispatch signals props e w))
  && forceCompleteTyping (ui (dispatch signals props e w)) = false.
Proof.
  intros Hw. by_event e; auto.
  all: try (cbn; by auto).
  - unfold loadHistory, handler. unfold_body. repeat body_step; auto.
  - destruct (handleFormSubmit_eq w) as (-> & _).
    by destruct (handleSubmit_typing_flags (ui w) (prompt (tray w)) w)
      as [[-> ->]|[-> ->]].
  - by destruct files as [[|x l]|].
  - unfold handleStopStreaming, handler.
    by destruct (abortController (ui w)), (isAssistantTyping (ui w)) eqn:E;
      unfold_body; rewrite ?E.
  - destruct (attachments (ui w) !! index) as [a0|]; [|done].
    by destruct (type a0).
  - unfold handleAdd, handler. by destruct (truthy (trim (modalUrl w))).
  - destruct (handleEditSend_eq (ui w) w) as (-> & _).
    destruct (truthy (trim (editDraft (ui w)))); [|done].
    cbn.
    by destruct (handleSubmit_typing_flags (ui w) (editDraft (ui w)) w)
      as [[-> ->]|[-> ->]].
Qed.

Lemma dispatch_extends_transcript e w :
  e <> Mounted ->
  messages (ui w) `prefix_of` messages (ui (dispatch signals props e w)).
Proof.
  intros He. by_event e; try done.
  all: try (cbn; done).
  - destruct (handleFormSubmit_eq w) as (-> & _). apply handleSubmit_extends.
  - by destruct files as [[|x l]|].
  - unfold handleStopStreaming.
    by destruct (abortController (ui w)), (isAssistantTyping (ui w)).
  - destruct (attachments (ui w) !! index) as [a0|]; [|done].
    by destruct (type a0).
  - unfold handleAdd, handler. by destruct (truthy (trim (modalUrl w))).
  - destruct (handleEditSend_eq (ui w) w) as (-> & _).
    destruct (truthy (trim (editDraft (ui w)))); [|done].
    cbn. apply handleSubmit_extends.
Qed.

Lemma dispatch_keeps_chat e w :
  falsy (chatId (ui w)) = false ->
  chatId (ui (dispatch signals props e w)) = chatId (ui w) /\
  (forall p, CallCreateChat p ∈ effects (dispatch signals props e w) ->
             CallCreateChat p ∈ effects w).
Proof.
  intros Hid. by_event e; try done.
  all: try (cbn; done).
  - unfold loadHistory, handler. unfold_body. repeat body_step; auto.
  - destruct (handleFormSubmit_eq w) as (-> & _ & ->).
    by apply handleSubmit_keeps_chat.
  - by destruct files as [[|x l]|].
  - unfold floating. rewrite handleCaptureClick_eq. cbn. split; [done|].
    intros p Hin. split_effects Hin; [done|discriminate Hin].
  - unfold handleStopStreaming.
    destruct (abortController (ui w)), (isAssistantTyping (ui w)); cbn.
    all: split; [done|]; try done.
    all: intros p Hin; split_effects Hin; [done|discriminate Hin].
  - destruct (attachments (ui w) !! index) as [a0|]; [|done].
    by destruct (type a0).
  - unfold handleAdd, handler. by destruct (truthy (trim (modalUrl w))).
  - destruct (handleEditSend_eq (ui w) w) as (-> & _ & ->).
    destruct (truthy (trim (editDraft (ui w)))); [|done].
    cbn. by apply handleSubmit_keeps_chat.
Qed.
End SessionInvariants.

(* ------------------------------------------------------------------------- *)
(** ** The capture trigger over a session *)
(* ------------------------------------------------------------------------- *)



(** X11: in no session does the capture trigger show a capture as pending:
    [isCapturing] is false after every sequence of events from the mount
    (nothing ever calls its setter), so the camera button is never
    disabled by it and each click on the rendered button reaches the
    placeholder, which logs its line. *)
Theorem capture_trigger_never_pending `{Backend.ChatApi}
    (signals : nat -> Backend.AbortSignal) (props : Chat.Props)
    (events : list Chat.Event) :
  let w := Chat.session signals props events (Chat.initialWorld props) in
  Chat.isCapturing (Chat.tray w) = false /\
  (Chat.isEditingPrompt (Chat.ui w) = false ->
   Chat.dispatch signals props Chat.CameraClick w = Chat.emit captureLine w).
Proof.
  intros w.
  assert (Chat.isCapturing (Chat.tray w) = false) as Hidle.
  { subst w.
    apply (session_invariant signals props
             (fun w => Chat.isCapturing (Chat.tray w) = false)); [|done].
    intros e w. apply dispatch_keeps_idle_trigger. }
  split; [exact Hidle|].
  intros Hshown. by rewrite dispatch_CameraClick, Hshown, Hidle.
Qed.

(** X12: in no session are [isAssistantTyping] and [forceCompleteTyping]
    set together: a submit sets the first and clears the second, the stop
    button clears the first when it sets the second, and the end of typing
    clears both.  The effect of a bubble that force-completes typing needs
    both, so it never does anything, for any bubble of any session. *)
Theorem force_complete_effect_never_fires `{Backend.ChatApi}
    (signals : nat -> Backend.AbortSignal) (props : Chat.Props)
    (events : list Chat.Event) (idx : nat) (msg : ChatMessage)
    (st : Bubble.State) :
  let s :=
    Chat.ui (Chat.session signals props events (Chat.initialWorld props)) in
  Chat.isAssistantTyping s && Chat.forceCompleteTyping s = false /\
  Bubble.forceCompleteEffect (content msg)
    (Bubble.enableTypingAt (Chat.messages s) (Chat.isAssistantTyping s)
       idx msg)
    (Bubble.forceCompleteAt (Chat.messages s) (Chat.forceCompleteTyping s)
       idx msg)
    (Bubble.isLastAssistant (Chat.messages s) idx msg) st
  = st.
Proof.
  intros s.
  assert (Chat.isAssistantTyping s && Chat.forceCompleteTyping s = false)
    as Hflags.
  { subst s.
    apply (session_invariant signals props
             (fun w => Chat.isAssistantTyping (Chat.ui w)
                       && Chat.forceCompleteTyping (Chat.ui w) = false));
      [|done].
    intros e w. apply dispatch_keeps_typing_flags_apart. }
  split; [exact Hflags|].
  unfold Bubble.forceCompleteEffect, Bubble.enableTypingAt,
    Bubble.forceCompleteAt.
  destruct (Bubble.isLastAssistant (Chat.messages s) idx msg),
    (Chat.isAssistantTyping s), (Chat.forceCompleteTyping s);
    try done.
Qed.

(** X13: the transcript is append-only.  Whatever the backend answers, no
    event other than the history load of the mount removes, reorders or
    rewrites a message: the transcript before a sequence of such events is
    a prefix of the transcript after it (an edit appends a new message; it
    does not change the one edited). *)
Theorem transcript_is_append_only `{Backend.ChatApi}
    (signals : nat -> Backend.AbortSignal) (props : Chat.Props)
    (events : list Chat.Event) (w : Chat.World) :
  Forall (fun e => e <> Chat.Mounted) events ->
  Chat.messages (Chat.ui w)
  `prefix_of`
  Chat.messages (Chat.ui (Chat.session signals props events w)).
Proof.
  intros Hev. revert w. induction Hev as [|e events He _ IH]; intros w.
  - done.
  - cbn [Chat.session foldl].
    etransitivity; [apply (dispatch_extends_transcript signals props e w He)|].
    apply IH.
Qed.

Lemma transcript_is_append_only_witness :
  Forall (fun e => e <> Chat.Mounted)
         [Chat.PromptChange (Js.lit "explain this move"); Chat.FormSubmit;
          Chat.EditRequest (Js.lit "explain this move"); Chat.EditSend] /\
  [mkMessage assistant (Js.lit "hello") None]
  `prefix_of`
  Chat.messages
    (Chat.ui
       (Chat.session (fun _ => neverAborted) tradeProps
          [Chat.PromptChange (Js.lit "explain this move"); Chat.FormSubmit;
           Chat.EditRequest (Js.lit "explain this move"); Chat.EditSend]
          (Chat.mkWorld
             (Chat.mkChat None [mkMessage assistant (Js.lit "hello") None]
                false None [] false None false [] false false)
             Chat.initialTray [] [] 0 0))).
Proof.
  assert (Forall (fun e => e <> Chat.Mounted)
            [Chat.PromptChange (Js.lit "explain this move"); Chat.FormSubmit;
             Chat.EditRequest (Js.lit "explain this move"); Chat.EditSend])
    as Hev by (repeat constructor; discriminate).
  split; [exact Hev|].
  exact (transcript_is_append_only (fun _ => neverAborted) tradeProps _
           (Chat.mkWorld
              (Chat.mkChat None [mkMessage assistant (Js.lit "hello") None]
                 false None [] false None false [] false false)
              Chat.initialTray [] [] 0 0) Hev).
Defined.

(** X14: once the chat has an identifier, no event changes it and
    [createChat] is never called again, whatever the backend answers: the
    identifier after any session is the one before it, and every
    [createChat] call on record was made before. *)
Theorem chat_identifier_is_stable `{Backend.ChatApi}
    (signals : nat -> Backend.AbortSignal) (props : Chat.Props)
    (events : list Chat.Event) (w : Chat.World) (id : Js.jsstring) :
  Chat.chatId (Chat.ui w) = Some id -> id <> [] ->
  let w' := Chat.session signals props events w in
  Chat.chatId (Chat.ui w') = Some id /\
  (forall p, Chat.CallCreateChat p ∈ Chat.effects w' ->
             Chat.CallCreateChat p ∈ Chat.effects w).
Proof.
  intros Hid Hne w'. subst w'.
  apply (session_invariant signals props
           (fun w' =>
              Chat.chatId (Chat.ui w') = Some id /\
              (forall p, Chat.CallCreateChat p ∈ Chat.effects w' ->
                         Chat.CallCreateChat p ∈ Chat.effects w)));
    [|by split].
  intros e w1 [Hchat Hcalls].
  assert (Chat.falsy (Chat.chatId (Chat.ui w1)) = false) as Hfalsy.
  { rewrite Hchat. by destruct id. }
  destruct (dispatch_keeps_chat signals props e w1 Hfalsy) as [-> Hnew].
  split; [exact Hchat|]. intros p Hin. by apply Hcalls, Hnew.
Qed.

Lemma chat_identifier_is_stable_witness :
  Chat.chatId
    (Chat.ui
       (Chat.session (fun _ => neverAborted) tradeProps
          [Chat.PromptChange (Js.lit "explain this move"); Chat.FormSubmit]
          existingWorld))
  = Some (Js.lit "c1").
Proof.
  apply (chat_identifier_is_stable (fun _ => neverAborted) tradeProps
           [Chat.PromptChange (Js.lit "explain this move"); Chat.FormSubmit]
           existingWorld (Js.lit "c1")).
  - reflexivity.
  - vm_compute. discriminate.
Defined.

(** X15: Send in the edit form always closes the form and clears the
    draft.  A draft that is empty or white space sends nothing, and so does
    any draft while a response is loading: the draft is dropped and the
    transcript, the pending attachments and the effects stay as they were.
    Otherwise the draft is submitted as a new user message, which carries
    the pending attachments and is appended to the transcript; the message
    that was edited stays. *)
Theorem edit_send_closes_the_form `{Backend.ChatApi}
    (signals : nat -> Backend.AbortSignal) (props : Chat.Props)
    (c : Chat.ChatState) (w : Chat.World) :
  let w' := Chat.handleEditSend signals props c w in
  Chat.isEditingPrompt (Chat.ui w') = false /\
  Chat.editDraft (Chat.ui w') = [] /\
  (forallb Js.isWhiteSpace (Chat.editDraft c) = true
   \/ Chat.isLoading c = true ->
   Chat.messages (Chat.ui w') = Chat.messages (Chat.ui w) /\
   Chat.attachments (Chat.ui w') = Chat.attachments (Chat.ui w) /\
   Chat.effects w' = Chat.effects w) /\
  (forallb Js.isWhiteSpace (Chat.editDraft c) = false ->
   Chat.isLoading c = false ->
   Chat.attachments (Chat.ui w') = [] /\
   exists tail,
     Chat.messages (Chat.ui w')
     = Chat.messages (Chat.ui w)
         ++ [userMessage c (Chat.editDraft c)] ++ tail).
Proof.
  intros w'. subst w'.
  destruct (handleEditSend_eq signals props c w) as (Hui & _ & Heff).
  rewrite Hui, Heff. clear Hui Heff.
  pose proof (trim_falsy (Chat.editDraft c)) as Htrim.
  split; [done|]. split; [done|]. split.
  - intros Hblank.
    destruct (Js.truthy (Js.trim (Chat.editDraft c))) eqn:Ht; [|done].
    destruct Hblank as [Hblank|Hload].
    + apply Htrim in Hblank. congruence.
    + rewrite handleSubmit_refused; [done|].
      apply submitRefused_true. by left.
  - intros Hsome Hload.
    destruct (Js.truthy (Js.trim (Chat.editDraft c))) eqn:Ht.
    + assert (Chat.submitRefused c (Chat.editDraft c) = false) as Hg
        by (apply submitRefused_false; auto).
      destruct (handleSubmit_accepted signals props c _ w Hg)
        as [He [tail [Hm _]]].
      cbn. split; [exact He|]. by exists tail.
    + destruct Htrim as [Htrim _]. rewrite (Htrim eq_refl) in Hsome.
      discriminate Hsome.
Qed.

Lemma edit_send_closes_the_form_witness :
  Chat.isLoading loadingChat = true /\
  Chat.messages
    (Chat.ui
       (Chat.handleEditSend (fun _ => neverAborted) tradeProps loadingChat
          (Chat.initialWorld tradeProps)))
  = [].
Proof.
  split; [reflexivity|].
  apply (proj1 (proj1 (proj2 (proj2 (edit_send_closes_the_form
                  (fun _ => neverAborted) tradeProps loadingChat
                  (Chat.initialWorld tradeProps))))
                  (or_intror eq_refl))).
Defined.

(** X16: the stop button pressed while a reply is being typed switches
    typing off (and force-complete on) without touching the transcript.
    Every bubble then re-runs its typing effect with typing disabled: its
    interval is cleared and it shows its whole content at once, with no
    further call of [onTypingDone]. *)
Theorem stop_shows_the_whole_reply `{Backend.ChatApi}
    (signals : nat -> Backend.AbortSignal) (props : Chat.Props)
    (w : Chat.World) (idx : nat) (msg : ChatMessage) (st : Bubble.State) :
  Chat.isEditingPrompt (Chat.ui w) = false ->
  Chat.isAssistantTyping (Chat.ui w) = true ->
  let w' := Chat.dispatch signals props Chat.StopClick w in
  let st' :=
    Bubble.typingEffect (content msg) (bool_decide (role msg = user))
      (Bubble.enableTypingAt (Chat.messages (Chat.ui w'))
         (Chat.isAssistantTyping (Chat.ui w')) idx msg)
      (Bubble.isLastAssistant (Chat.messages (Chat.ui w')) idx msg)
      (Bubble.cleanup st) in
  Chat.isAssistantTyping (Chat.ui w') = false /\
  Chat.forceCompleteTyping (Chat.ui w') = true /\
  Chat.messages (Chat.ui w') = Chat.messages (Chat.ui w) /\
  Bubble.displayedContent st' = content msg /\
  Bubble.typingIntervalRef st' = false /\
  Bubble.typingDoneCalls st' = Bubble.typingDoneCalls st.
Proof.
  intros Hshown Htyping w' st'.
  assert (Chat.isAssistantTyping (Chat.ui w') = false /\
          Chat.forceCompleteTyping (Chat.ui w') = true /\
          Chat.messages (Chat.ui w') = Chat.messages (Chat.ui w))
    as (Hoff & Hforce & Hmsgs).
  { subst w'. unfold Chat.dispatch. rewrite Hshown, Htyping.
    rewrite orb_true_r. cbn [negb andb orb].
    unfold Chat.handleStopStreaming, Chat.handler. rewrite Htyping.
    by destruct (Chat.abortController (Chat.ui w)); unfold_body. }
  repeat (split; [assumption|]).
  subst st'. unfold Bubble.enableTypingAt. rewrite Hoff, andb_false_r.
  unfold Bubble.typingEffect.
  by destruct (bool_decide (role msg = user)).
Qed.

Lemma stop_shows_the_whole_reply_witness :
  Chat.isAssistantTyping
    (Chat.ui (Chat.dispatch (fun _ => neverAborted) tradeProps Chat.StopClick
                streamingWorld))
  = false.
Proof.
  apply (stop_shows_the_whole_reply (fun _ => neverAborted) tradeProps
           streamingWorld 0 (mkMessage assistant (Js.lit "hello") None)
           Bubble.mounted eq_refl eq_refl).
Defined.

(** X17: the history load never touches the pending attachments, the chat
    identifier or the effects.  When the chat was opened on a conversation
    and [getMessages] answers with rows and no error, the transcript is
    replaced by one message per row, in order, none with attachments: role
    assistant for the rows whose role is [assistant], role user for every
    other row, and the empty text for a row without content.  In every
    other case (no initial chat or an empty identifier, a rejected
    request, an answer with an error or without rows) the state of the
    chat is left as it is. *)
Theorem history_load_replaces_or_keeps `{Backend.ChatApi}
    (props : Chat.Props) (w : Chat.World) :
  let w' := Chat.loadHistory props w in
  Chat.attachments (Chat.ui w') = Chat.attachments (Chat.ui w) /\
  Chat.chatId (Chat.ui w') = Chat.chatId (Chat.ui w) /\
  Chat.effects w' = Chat.effects w /\
  (forall id rows,
     Chat.initialChatId props = Some id -> id <> [] ->
     Backend.getMessages id
     = Js.fulfilled (Backend.mkResult (Some rows) None) ->
     Chat.messages (Chat.ui w') = ofRow <$> rows /\
     length (Chat.messages (Chat.ui w')) = length rows /\
     forall i row,
       rows !! i = Some row ->
       exists m,
         Chat.messages (Chat.ui w') !! i = Some m /\
         (role m = assistant <-> Backend.row_role row = Js.lit "assistant") /\
         (role m = user <-> Backend.row_role row <> Js.lit "assistant") /\
         content m = default [] (Backend.row_content row) /\
         msg_attachments m = None) /\
  (Chat.initialChatId props = None \/ Chat.initialChatId props = Some [] ->
   w' = w) /\
  (forall id,
     Chat.initialChatId props = Some id ->
     (forall rows,
        Backend.getMessages id
        <> Js.fulfilled (Backend.mkResult (Some rows) None)) ->
     Chat.ui w' = Chat.ui w).
Proof.
  intros w'. subst w'. unfold Chat.loadHistory, Chat.handler.
  destruct (Chat.initialChatId props) as [id|] eqn:Hid.
  2: { cbn. repeat split; auto; discriminate. }
  destruct (Js.truthy id) eqn:Ht; cbn [negb].
  2: { destruct id; [|discriminate Ht]. cbn.
       repeat split; auto; congruence. }
  assert (id <> []) as Hne by (intros ->; discriminate Ht).
  unfold_body.
  destruct (Backend.getMessages id) as [[data err]|e] eqn:Hget; cbn.
  2: { repeat split; auto; try congruence.
       intros [?|?]; congruence. }
  destruct err as [err|], data as [rows|]; cbn.
  1,2,4: repeat split; auto; try congruence;
    intros [?|?]; congruence.
  split; [done|]. split; [done|]. split; [done|]. split; [|split].
  - intros id' rows' [= <-] _ Hrows. rewrite Hget in Hrows.
    injection Hrows as <-.
    split; [reflexivity|]. split; [apply length_map|].
    intros i row Hrow. exists (ofRow row).
    split; [by rewrite list_lookup_fmap, Hrow|].
    unfold ofRow. cbn.
    destruct (bool_decide (Backend.row_role row = Js.lit "assistant")) eqn:Hb.
    + apply bool_decide_eq_true in Hb. by repeat split.
    + apply bool_decide_eq_false in Hb. by repeat split.
  - intros [?|?]; congruence.
  - intros id' [= <-] Hno. by destruct (Hno rows).
Qed.

Lemma history_load_replaces_or_keeps_witness :
  Chat.messages
    (Chat.ui (@Chat.loadHistory archiveApi openedProps talkedWorld))
  = [mkMessage assistant (Js.lit "hello") None;
     mkMessage user [] None;
     mkMessage user (Js.lit "why?") None].
Proof.
  assert (Js.lit "c1" <> []) as Hid by (vm_compute; discriminate).
  exact (proj1
           (proj1 (proj2 (proj2 (proj2
              (@history_load_replaces_or_keeps archiveApi openedProps
                 talkedWorld))))
              (Js.lit "c1") archive eq_refl Hid eq_refl)).
Defined.

(** X18: of the bubbles of a transcript only one can animate: after its
    typing effect a bubble holds an interval only if it is the last
    message, an assistant message without chart markers, and typing is on;
    it then starts from the empty text.  Every other bubble shows its
    whole content at once. *)
Theorem only_the_last_reply_animates
    (msgs : list ChatMessage) (typing : bool) (idx : nat)
    (msg : ChatMessage) :
  let st := Bubble.rendered msgs typing idx msg in
  (Bubble.typingIntervalRef st = true ->
   S idx = length msgs /\ role msg = assistant /\ typing = true /\
   Bubble.hasChart (content msg) = false /\
   Bubble.displayedContent st = []) /\
  (Bubble.typingIntervalRef st = false ->
   Bubble.displayedContent st = content msg).
Proof.
  intros st. subst st.
  unfold Bubble.rendered, Bubble.typingEffect, Bubble.enableTypingAt,
    Bubble.isLastAssistant, Bubble.callOnTypingDone.
  destruct (Nat.eqb_spec (S idx) (length msgs)) as [Hlast|Hlast];
    destruct (role msg); cbn;
    destruct typing; cbn;
    try destruct (Bubble.hasChart (content msg)); cbn.
  all: split; intros Hst; try discriminate Hst; try done.
Qed.

(** X19: when the response of the stream request has no body, the reply is
    what [text()] of the response gives: it is appended to the transcript
    as the assistant message, also when it is the empty string, and typing
    is switched on for it. *)
Theorem bodyless_response_uses_its_text `{Backend.ChatApi}
    (signals : nat -> Backend.AbortSignal) (props : Chat.Props)
    (c : Chat.ChatState) (prompt : Js.jsstring) (w : Chat.World)
    (id txt : Js.jsstring) :
  Chat.isLoading c = false ->
  forallb Js.isWhiteSpace prompt = false \/ Chat.attachments c <> [] ->
  chatIdAvailable c prompt id ->
  Backend.streamMessage id prompt (Chat.attachments c)
    (signals (Chat.controllers w)) (Chat.mode props)
  = Js.fulfilled (Backend.mkResponse None (Js.fulfilled txt)) ->
  let r := Chat.handleSubmit signals props c prompt w in
  Chat.messages (Chat.ui (snd r))
  = Chat.messages (Chat.ui w)
      ++ [userMessage c prompt; mkMessage assistant txt None] /\
  Chat.isAssistantTyping (Chat.ui (snd r)) = true /\
  Chat.forceCompleteTyping (Chat.ui (snd r)) = false /\
  Chat.isLoading (Chat.ui (snd r)) = false.
Proof.
  intros Hload Hsome [Hid Hsrc] Hstream r. subst r.
  assert (Chat.submitRefused c prompt = false) as Hg
    by (by apply submitRefused_false).
  unfold Chat.handleSubmit, Chat.async, userMessage. rewrite Hg. unfold_body.
  destruct Hsrc as [Hc|[Hc Hcreate]]; rewrite Hc; cbn;
    rewrite ?Hcreate; cbn; rewrite Hid; cbn;
    destruct (Chat.abortController c); cbn; rewrite Hstream; cbn.
  all: rewrite <- ?app_assoc; by repeat split.
Qed.

Lemma bodyless_response_uses_its_text_witness :
  Chat.messages
    (Chat.ui
       (snd (@Chat.handleSubmit textApi (fun _ => neverAborted) tradeProps
               existingChat (Js.lit "explain this move") existingWorld)))
  = [mkMessage user (Js.lit "explain this move") (Some []);
     mkMessage assistant (Js.lit "Bullish.") None].
Proof.
  apply (@bodyless_response_uses_its_text textApi (fun _ => neverAborted)
           tradeProps existingChat (Js.lit "explain this move")
           existingWorld (Js.lit "c1") (Js.lit "Bullish.")).
  - reflexivity.
  - left. reflexivity.
  - split; [reflexivity|]. left. reflexivity.
  - reflexivity.
Defined.
